(** * DevOps-Guardian-Agent: the failure-extraction pipeline

    A shallow embedding of
    - [src/agent-system/services/github-service.js] (class [GitHubService]):
      [getWorkflowRuns], [getLastFailedRun], [extractFailureInfo],
      [extractErrorsFromLogs];
    - the Express application with the [POST /agent/analyze] handler.

    JavaScript strings are sequences of UTF-16 code units, so the log text is
    a [list N]; the regular expressions of [extractErrorsFromLogs] are kept as
    syntax and run by a matcher that follows [String.prototype.match] for
    a global, case-insensitive expression. *)

From Stdlib Require Import String Ascii NArith ZArith Bool Arith Lia List.
From Stdlib Require Import DecimalString.
Import ListNotations.

Set Warnings "-register-all".

Set Implicit Arguments.

(** ** Completion records: a call returns normally or throws *)

Inductive completion (A : Type) : Type :=
| Normal (a : A)
| Throw (message : string).

Arguments Normal {A} a.
Arguments Throw {A} message.

Definition bind {A B : Type} (c : completion A) (k : A -> completion B)
  : completion B :=
  match c with
  | Normal a => k a
  | Throw m => Throw m
  end.

(** [try { body } catch (error) { handler }] *)
Definition try_catch {A : Type} (body : completion A)
  (handler : string -> completion A) : completion A :=
  match body with
  | Normal a => Normal a
  | Throw m => handler m
  end.

Notation "x <- c ;; k" := (bind c (fun x => k))
  (at level 61, c at next level, right associativity).

(** ** JavaScript strings *)

Module JsString.

Definition codeunit := N.
Definition jsstring := list codeunit.

(** An ASCII literal of the source as code units. *)
Definition js (s : string) : jsstring :=
  map N_of_ascii (list_ascii_of_string s).

Definition nl : jsstring := [10%N].

(** [Array.prototype.join] on an array of strings. *)
Fixpoint join (sep : jsstring) (l : list jsstring) : jsstring :=
  match l with
  | [] => []
  | [x] => x
  | x :: rest => x ++ sep ++ join sep rest
  end.

(** [s.slice(-n)]: the start index is [max (length s - n) 0]. *)
Definition slice_last (n : nat) (s : jsstring) : jsstring :=
  skipn (length s - n) s.

(** [arr.slice(0, n)] *)
Definition slice_first {A : Type} (n : nat) (l : list A) : list A :=
  firstn n l.

End JsString.

Import JsString.

(** ** Regular expressions of the shape used by [errorPatterns] *)

Module RegExp.

(** A pattern is a sequence of atoms: a literal character, or [.+]. *)
Inductive atom : Type :=
| Chr (c : codeunit)
| DotPlus.

Definition regex := list atom.

Definition lit (s : string) : regex := map Chr (js s).

(** Line terminators, which [.] does not match: LF, CR, U+2028, U+2029. *)
Definition isLineTerminator (c : codeunit) : bool :=
  ((c =? 10) || (c =? 13) || (c =? 8232) || (c =? 8233))%N.

(** Canonicalize of the [i] flag (no [u] flag): the upper-case mapping, which
    is never allowed to send a code unit of 128 or more below 128.  All
    pattern characters are ASCII, so only the folding of [a]..[z] can make
    an input character equal to a pattern character. *)
Definition canonicalize (c : codeunit) : codeunit :=
  if ((97 <=? c) && (c <=? 122))%N then (c - 32)%N else c.

Definition chr_matches (c x : codeunit) : bool :=
  (canonicalize x =? canonicalize c)%N.

(** One attempt at the current position.  [Some n]: the pattern matches the
    first [n] code units.  [.+] is greedy and gives characters back only when
    the rest of the pattern fails. *)
Fixpoint matchHere (p : regex) (s : jsstring) {struct p} : option nat :=
  match p with
  | [] => Some 0
  | Chr c :: p' =>
      match s with
      | x :: s' =>
          if chr_matches c x then option_map S (matchHere p' s') else None
      | [] => None
      end
  | DotPlus :: p' =>
      (fix greedy (t : jsstring) : option nat :=
         match t with
         | x :: t' =>
             if isLineTerminator x then None
             else match greedy t' with
                  | Some n => Some (S n)
                  | None => option_map S (matchHere p' t')
                  end
         | [] => None
         end) s
  end.

(** All matches of a global expression, as [RegExpBuiltinExec] is iterated by
    [String.prototype.match]: after a match of [n] code units the next attempt
    is [n] positions further (one position when the match is empty); [skip]
    counts the positions still to be passed over.  [pos] is the index of the
    head of [s] in the whole text; a match is recorded as (start, length). *)
Fixpoint scan (p : regex) (s : jsstring) (skip pos : nat)
  : list (nat * nat) :=
  match s with
  | [] =>
      match skip, matchHere p [] with
      | O, Some n => [(pos, n)]
      | _, _ => []
      end
  | _ :: s' =>
      match skip with
      | S k => scan p s' k (S pos)
      | O =>
          match matchHere p s with
          | Some n => (pos, n) :: scan p s' (n - 1) (S pos)
          | None => scan p s' 0 (S pos)
          end
      end
  end.

Definition substring (text : jsstring) (m : nat * nat) : jsstring :=
  firstn (snd m) (skipn (fst m) text).

Definition matchAll (p : regex) (text : jsstring) : list jsstring :=
  map (substring text) (scan p text 0 0).

(** [text.match(p)]: [null] when there is no match, else the array of the
    matched substrings. *)
Definition jsmatch (p : regex) (text : jsstring) : option (list jsstring) :=
  match matchAll p text with
  | [] => None
  | l => Some l
  end.

End RegExp.

Import RegExp.

(** ** [Buffer.prototype.toString('utf-8')]

    The runtime decodes the bytes as UTF-8 and never fails on a [Buffer]: each
    ill-formed sequence becomes U+FFFD, a byte that cannot continue a sequence
    is read again as the start of the next one, and no byte order mark is
    removed.  Code points above U+FFFF become a surrogate pair. *)

Module Utf8.

Record state : Type := mkState {
  codePoint : N;
  needed : nat;          (* continuation bytes still expected *)
  lower : N;
  upper : N
}.

Definition initial : state := mkState 0 0 128 191.

Definition replacement : codeunit := 65533%N.

Definition utf16 (cp : N) : jsstring :=
  if (cp <? 65536)%N then [cp]
  else let c := (cp - 65536)%N in
       [(55296 + N.shiftr c 10)%N; (56320 + N.land c 1023)%N].

(** A byte read when no sequence is open. *)
Definition lead (b : N) : jsstring * state :=
  if (b <=? 127)%N then ([b], initial)
  else if ((194 <=? b) && (b <=? 223))%N then
    ([], mkState (N.land b 31) 1 128 191)
  else if ((224 <=? b) && (b <=? 239))%N then
    ([], mkState (N.land b 15) 2
           (if (b =? 224)%N then 160%N else 128%N)
           (if (b =? 237)%N then 159%N else 191%N))
  else if ((240 <=? b) && (b <=? 244))%N then
    ([], mkState (N.land b 7) 3
           (if (b =? 240)%N then 144%N else 128%N)
           (if (b =? 244)%N then 143%N else 191%N))
  else ([replacement], initial).

Definition step (st : state) (b : N) : jsstring * state :=
  match needed st with
  | O => lead b
  | S k =>
      if ((lower st <=? b) && (b <=? upper st))%N then
        let cp := N.lor (N.shiftl (codePoint st) 6) (N.land b 63) in
        match k with
        | O => (utf16 cp, initial)
        | S _ => ([], mkState cp k 128 191)
        end
      else
        let (out, st') := lead b in (replacement :: out, st')
  end.

Fixpoint run (st : state) (bytes : list Byte.byte) : jsstring :=
  match bytes with
  | [] => match needed st with O => [] | S _ => [replacement] end
  | b :: rest =>
      let (out, st') := step st (Byte.to_N b) in out ++ run st' rest
  end.

Definition decode (bytes : list Byte.byte) : jsstring := run initial bytes.

End Utf8.

(** ** [extractErrorsFromLogs]: the pattern extractor *)

Module Extractor.

Definition errorPatterns : list regex :=
  [ lit "Error:" ++ [DotPlus];
    lit "ERROR:" ++ [DotPlus];
    lit "Failed:" ++ [DotPlus];
    lit "FAILED:" ++ [DotPlus];
    lit "[error]" ++ [DotPlus];
    lit "fatal:" ++ [DotPlus] ].

(** The [for (const pattern of errorPatterns)] loop. *)
Definition collectErrors (logText : jsstring) : list jsstring :=
  fold_left
    (fun errors pattern =>
       match jsmatch pattern logText with
       | Some matches => errors ++ matches
       | None => errors
       end)
    errorPatterns [].

(** The body of [extractErrorsFromLogs] after the buffer has been turned
    into [logText]. *)
Definition extractErrorExcerpt (logText : jsstring) : jsstring :=
  let errors := collectErrors logText in
  let errorText := join nl (slice_first 50 errors) in
  if 0 <? length errorText then errorText
  else slice_last 2000 logText.

(** The argument [logBuffer]: a [Buffer] of bytes, a string, or no object
    at all. *)
Inductive logInput : Type :=
| LogUndefined
| LogNull
| LogBuffer (bytes : list Byte.byte)
| LogString (text : jsstring).

(** [logBuffer.toString('utf-8')] *)
Definition toString (logBuffer : logInput) : completion jsstring :=
  match logBuffer with
  | LogUndefined =>
      Throw "Cannot read properties of undefined (reading 'toString')"
  | LogNull => Throw "Cannot read properties of null (reading 'toString')"
  | LogBuffer bytes => Normal (Utf8.decode bytes)
  | LogString text => Normal text
  end.

Definition unableToParse : jsstring := js "Unable to parse log content".

Definition extractErrorsFromLogs (logBuffer : logInput)
  : completion jsstring :=
  try_catch
    (logText <- toString logBuffer ;;
     Normal (extractErrorExcerpt logText))
    (fun _ => Normal unableToParse).

End Extractor.

Import Extractor.


(** ** The GitHub service: run locator and failure summarizer *)

Module GitHub.

Record WorkflowRun : Type := mkRun {
  run_id : Z;
  run_created_at : string;
  run_status : string;
  run_conclusion : option string
}.

Record Step : Type := mkStep {
  step_name : string;
  step_number : Z;
  step_conclusion : option string;   (* [null] while not concluded *)
  step_started_at : option string;
  step_completed_at : option string
}.

Record Job : Type := mkJob {
  job_name : string;
  job_conclusion : option string;
  job_started_at : option string;
  job_completed_at : option string;
  job_steps : list Step
}.

(** The objects built by [extractFailureInfo]. *)
Record FailedStep : Type := mkFailedStep {
  fs_name : string;
  fs_number : Z;
  fs_conclusion : option string;
  fs_startedAt : option string;
  fs_completedAt : option string
}.

Record FailedJob : Type := mkFailedJob {
  fj_name : string;
  fj_conclusion : option string;
  fj_startedAt : option string;
  fj_completedAt : option string;
  fj_failedSteps : list FailedStep
}.

Record FailureInfo : Type := mkFailureInfo {
  runId : Z;
  failedJobsCount : nat;
  failedJobs : list FailedJob
}.

(** [x.conclusion === 'failure'] *)
Definition is_failure (conclusion : option string) : bool :=
  match conclusion with
  | Some c => String.eqb c "failure"
  | None => false
  end.

Definition failedStepOf (step : Step) : FailedStep :=
  mkFailedStep (step_name step) (step_number step) (step_conclusion step)
    (step_started_at step) (step_completed_at step).

Definition failedJobOf (job : Job) : FailedJob :=
  mkFailedJob (job_name job) (job_conclusion job) (job_started_at job)
    (job_completed_at job)
    (map failedStepOf
       (filter (fun step => is_failure (step_conclusion step))
          (job_steps job))).

(** The summarization of [extractFailureInfo], once [jobs] is fetched. *)
Definition summarizeFailures (runId : Z) (jobs : list Job) : FailureInfo :=
  let failedJobs := filter (fun job => is_failure (job_conclusion job)) jobs in
  mkFailureInfo runId (length failedJobs) (map failedJobOf failedJobs).

(** What [axios.get] is called with, and what it resolves to. *)
Record Params : Type := mkParams {
  per_page : option Z;
  page : option Z;
  param_status : option string;
  param_conclusion : option string
}.

Record Request : Type := mkRequest {
  url : string;
  params : Params
}.

Record ResponseData : Type := mkData {
  workflow_runs : option (list WorkflowRun);   (* [None]: field missing *)
  jobs : option (list Job)
}.

Definition baseURL : string := "https://api.github.com".

(** [if (s) params.x = s]: the empty string is falsy. *)
Definition truthy_string (s : string) : option string :=
  if String.eqb s "" then None else Some s.

(** [`${runId}`] for an integer run id. *)
Definition number_text (n : Z) : string :=
  NilEmpty.string_of_int (Z.to_int n).

(** [a || []] *)
Definition or_empty {A : Type} (a : option (list A)) : list A :=
  match a with
  | Some l => l
  | None => []
  end.

Section Service.

(** The remote API: a rejected promise is a [Throw]. *)
Variable axios_get : Request -> completion ResponseData.

Definition getWorkflowRuns (owner repo workflowId status conclusion : string)
  : completion (list WorkflowRun) :=
  try_catch
    (let url := (baseURL ++ "/repos/" ++ owner ++ "/" ++ repo
                   ++ "/actions/workflows/" ++ workflowId ++ "/runs")%string in
     let params :=
       mkParams (Some 10%Z) (Some 1%Z)
         (truthy_string status) (truthy_string conclusion) in
     data <- axios_get (mkRequest url params) ;;
     Normal (or_empty (workflow_runs data)))
    (fun error => Throw error).

(** [null] is [None]. *)
Definition getLastFailedRun (owner repo workflowId : string)
  : completion (option WorkflowRun) :=
  try_catch
    (runs <- getWorkflowRuns owner repo workflowId "completed" "failure" ;;
     if length runs =? 0 then Normal None
     else
       match nth_error runs 0 with
       | Some lastFailedRun => Normal (Some lastFailedRun)
       | None => Throw "Cannot read properties of undefined (reading 'id')"
       end)
    (fun error => Throw error).

Definition getWorkflowRunJobs (owner repo : string) (runId : Z)
  : completion (list Job) :=
  try_catch
    (let url := (baseURL ++ "/repos/" ++ owner ++ "/" ++ repo
                   ++ "/actions/runs/" ++ number_text runId ++ "/jobs")%string in
     data <- axios_get (mkRequest url (mkParams None None None None)) ;;
     Normal (or_empty (jobs data)))
    (fun error => Throw error).

Definition extractFailureInfo (owner repo : string) (runId : Z)
  : completion FailureInfo :=
  try_catch
    (jobs <- getWorkflowRunJobs owner repo runId ;;
     Normal (summarizeFailures runId jobs))
    (fun error => Throw error).

End Service.

End GitHub.

(** ** The Express application: [POST /agent/analyze] *)

Module Server.

(** Values of a parsed request body, and of the object handed to
    [res.json].  Numbers are the integers; the handler only tests them for
    being zero. *)
Inductive value : Type :=
| VUndefined
| VNull
| VBool (b : bool)
| VNum (n : Z)
| VStr (s : string)
| VArr (items : list value)
| VObj (fields : list (string * value)).

(** [!v] is [negb (truthy v)]. *)
Definition truthy (v : value) : bool :=
  match v with
  | VUndefined | VNull => false
  | VBool b => b
  | VNum n => negb (n =? 0)%Z
  | VStr s => negb (String.eqb s "")
  | VArr _ | VObj _ => true
  end.

(** The binding of [key]; of two bindings of one key the later one holds, as
    in [JSON.parse]. *)
Fixpoint lookup (key : string) (fields : list (string * value))
  : option value :=
  match fields with
  | [] => None
  | (k, v) :: rest =>
      match lookup key rest with
      | Some v' => Some v'
      | None => if String.eqb k key then Some v else None
      end
  end.

(** [body.key] for a body that is not [undefined] or [null]; none of the
    keys read by the handler exists on a prototype. *)
Definition get (key : string) (body : value) : value :=
  match body with
  | VObj fields =>
      match lookup key fields with
      | Some v => v
      | None => VUndefined
      end
  | _ => VUndefined
  end.

(** [const { ... } = req.body] throws on [undefined] and [null]. *)
Definition destructurable (body : value) : completion value :=
  match body with
  | VUndefined => Throw "Cannot destructure 'req.body' as it is undefined."
  | VNull => Throw "Cannot destructure 'req.body' as it is null."
  | _ => Normal body
  end.

(** [errorLog.substring(0, 500)]: only a string has the method. *)
Definition substring500 (errorLog : value) : completion string :=
  match errorLog with
  | VStr s => Normal (String.substring 0 500 s)
  | _ => Throw "errorLog.substring is not a function"
  end.

Record response : Type := mkResponse {
  statusCode : Z;
  body : value
}.

Definition missingErrorLog : response :=
  mkResponse 400 (VObj [("error"%string, VStr "Missing required field: errorLog")]).

(** The handler; [now] is [new Date().toISOString()] at the time of the
    reply.  [Throw]: the handler's promise is rejected and nothing is sent. *)
Definition analyze (now : string) (reqBody : value) : completion response :=
  b <- destructurable reqBody ;;
  let runId := get "runId" b in
  let runUrl := get "runUrl" b in
  let failedJobs := get "failedJobs" b in
  let errorLog := get "errorLog" b in
  let repository := get "repository" b in
  if negb (truthy errorLog) then Normal missingErrorLog
  else
    _ <- substring500 errorLog ;;
    Normal (mkResponse 200
      (VObj [("status"%string, VStr "received");
             ("message"%string,
              VStr "Failure data logged. AI analysis not yet implemented.");
             ("timestamp"%string, VStr now);
             ("metadata"%string,
              VObj [("runId"%string, runId); ("runUrl"%string, runUrl);
                    ("repository"%string, repository);
                    ("failedJobs"%string, failedJobs)])])).

End Server.

(** ** Vocabulary of the specification *)

Module Reading.

(** The code units from the head of [s] up to the first line terminator. *)
Fixpoint lineRest (s : jsstring) : jsstring :=
  match s with
  | [] => []
  | x :: s' => if isLineTerminator x then [] else x :: lineRest s'
  end.

(** [s] starts with [marker], letter case ignored. *)
Fixpoint startsWith (marker s : jsstring) : bool :=
  match marker, s with
  | [], _ => true
  | c :: marker', x :: s' => chr_matches c x && startsWith marker' s'
  | _ :: _, [] => false
  end.

(** The failure markers of the specification, in its order. *)
Definition markers : list jsstring :=
  [ js "Error:"; js "ERROR:"; js "Failed:"; js "FAILED:"; js "[error]";
    js "fatal:" ].

Definition markerPattern (marker : jsstring) : regex :=
  map Chr marker ++ [DotPlus].

(** The text from a marker at the head of [s] to the end of its line. *)
Definition fragment (marker s : jsstring) : jsstring :=
  firstn (length marker) s ++ lineRest (skipn (length marker) s).

Definition noLF (x : jsstring) : bool :=
  forallb (fun c => negb (c =? 10)%N) x.

(** [x] is what a pattern matched somewhere in [text]. *)
Definition matchedIn (text x : jsstring) : Prop :=
  exists marker i,
    In marker markers /\ i <= length text /\
    startsWith marker (skipn i text) = true /\
    lineRest (skipn (length marker) (skipn i text)) <> [] /\
    x = fragment marker (skipn i text).

(** [s.split('\n')] *)
Fixpoint lines (s : jsstring) : list jsstring :=
  match s with
  | [] => [[]]
  | c :: s' =>
      if (c =? 10)%N then [] :: lines s'
      else match lines s' with
           | l :: ls => (c :: l) :: ls
           | [] => [[c]]
           end
  end.

Definition beginsWithMarker (line : jsstring) : bool :=
  existsb (fun marker => startsWith marker line) markers.

(** The last [n] code units of [text] (all of it when it is shorter). *)
Definition isTail (n : nat) (text out : jsstring) : Prop :=
  length out = Nat.min n (length text) /\ exists front, text = front ++ out.

(** [kept] is what a stable filter by [keep] leaves of [l]: the elements
    that satisfy [keep], all of them, in the order of [l]. *)
Inductive StableFilter {A : Type} (keep : A -> Prop)
  : list A -> list A -> Prop :=
| SF_nil : StableFilter keep [] []
| SF_keep x l kept :
    keep x -> StableFilter keep l kept -> StableFilter keep (x :: l) (x :: kept)
| SF_drop x l kept :
    ~ keep x -> StableFilter keep l kept -> StableFilter keep (x :: l) kept.

(** Starts of matches in document order, no two overlapping. *)
Fixpoint ascending (from : nat) (ms : list (nat * nat)) : Prop :=
  match ms with
  | [] => True
  | (start, len) :: rest =>
      from <= start /\ ascending (start + Nat.max 1 len) rest
  end.

(** [found] is all the matches of [p] in [text], in document order: the
    matched substrings at ascending, non-overlapping positions, such that
    every position where [p] matches starts one of them or lies inside one. *)
Definition allMatchesInOrder (p : regex) (text : jsstring)
  (found : list jsstring) : Prop :=
  exists ms : list (nat * nat),
    found = map (substring text) ms /\
    ascending 0 ms /\
    (forall i n, In (i, n) ms ->
       i <= length text /\ matchHere p (skipn i text) = Some n) /\
    (forall i n, i <= length text -> matchHere p (skipn i text) = Some n ->
       In (i, n) ms \/ exists j m, In (j, m) ms /\ j < i < j + m).

(** The log text of the specification's scenario. *)
Definition scenarioLog : jsstring :=
  js "foo" ++ nl ++ js "Error: disk full" ++ nl ++ js "bar" ++ nl
    ++ js "ERROR: retry failed" ++ nl.

Definition scenarioTwoLines : jsstring :=
  js "Error: disk full" ++ nl ++ js "ERROR: retry failed".

Definition scenarioFourLines : jsstring :=
  js "Error: disk full" ++ nl ++ js "ERROR: retry failed" ++ nl
    ++ js "Error: disk full" ++ nl ++ js "ERROR: retry failed".

(** A marker in the middle of a line; a marker with nothing after it. *)
Definition midLineLog : jsstring := js "x Error: y".
Definition bareMarkerLog : jsstring := js "Error:" ++ nl ++ js "foo".

(** Thirty lines, each matched by two patterns. *)
Definition thirtyErrors : jsstring :=
  concat (repeat (js "Error: x" ++ nl) 30).

(** The request [getLastFailedRun] makes through [getWorkflowRuns]. *)
Definition failedRunsRequest (owner repo workflowId : string)
  : GitHub.Request :=
  GitHub.mkRequest
    (GitHub.baseURL ++ "/repos/" ++ owner ++ "/" ++ repo
       ++ "/actions/workflows/" ++ workflowId ++ "/runs")%string
    (GitHub.mkParams (Some 10%Z) (Some 1%Z) (Some "completed"%string)
       (Some "failure"%string)).

(** Two failed runs, the older one first. *)
Definition olderRun : GitHub.WorkflowRun :=
  GitHub.mkRun 11 "2024-01-01T00:00:00Z" "completed" (Some "failure"%string).
Definition newerRun : GitHub.WorkflowRun :=
  GitHub.mkRun 12 "2024-06-01T00:00:00Z" "completed" (Some "failure"%string).

Definition unsortedApi (_ : GitHub.Request)
  : completion GitHub.ResponseData :=
  Normal (GitHub.mkData (Some [olderRun; newerRun]) None).

Definition emptyApi (_ : GitHub.Request) : completion GitHub.ResponseData :=
  Normal (GitHub.mkData (Some []) None).

(** The jobs of the specification's scenario. *)
Definition scenarioJobs : list GitHub.Job :=
  [ GitHub.mkJob "build" (Some "failure"%string) None None
      [ GitHub.mkStep "compile" 1 (Some "failure"%string) None None;
        GitHub.mkStep "test" 2 (Some "success"%string) None None ];
    GitHub.mkJob "lint" (Some "success"%string) None None [] ].

(** A step of the report shows a step of the run: every field is the
    field of the step. *)
Definition showsStep (step : GitHub.Step) (shown : GitHub.FailedStep)
  : Prop :=
  GitHub.fs_name shown = GitHub.step_name step /\
  GitHub.fs_number shown = GitHub.step_number step /\
  GitHub.fs_conclusion shown = GitHub.step_conclusion step /\
  GitHub.fs_startedAt shown = GitHub.step_started_at step /\
  GitHub.fs_completedAt shown = GitHub.step_completed_at step.

(** A job of the report shows a job of the run: same name, conclusion and
    times, and one shown step for each failed step of the job, in the order
    of its steps. *)
Definition showsJob (job : GitHub.Job) (shown : GitHub.FailedJob) : Prop :=
  GitHub.fj_name shown = GitHub.job_name job /\
  GitHub.fj_conclusion shown = GitHub.job_conclusion job /\
  GitHub.fj_startedAt shown = GitHub.job_started_at job /\
  GitHub.fj_completedAt shown = GitHub.job_completed_at job /\
  exists steps : list GitHub.Step,
    StableFilter
      (fun step => GitHub.step_conclusion step = Some "failure"%string)
      (GitHub.job_steps job) steps /\
    Forall2 showsStep steps (GitHub.fj_failedSteps shown).

(** The scenario's jobs with the job that did not fail left out, and with
    a cancelled job put in front. *)
Definition scenarioFailedOnly : list GitHub.Job :=
  [ GitHub.mkJob "build" (Some "failure"%string) None None
      [ GitHub.mkStep "compile" 1 (Some "failure"%string) None None;
        GitHub.mkStep "test" 2 (Some "success"%string) None None ] ].

Definition scenarioWithCancelled : list GitHub.Job :=
  GitHub.mkJob "deploy" (Some "cancelled"%string) None None
    [ GitHub.mkStep "push" 1 (Some "failure"%string) None None ]
  :: scenarioFailedOnly.

Definition timestamp : string := "2026-01-01T00:00:00.000Z".

(** The reply to an accepted request. *)
Definition received (now : string) (reqBody : Server.value)
  : Server.response :=
  Server.mkResponse 200
    (Server.VObj
       [("status"%string, Server.VStr "received");
        ("message"%string,
         Server.VStr "Failure data logged. AI analysis not yet implemented.");
        ("timestamp"%string, Server.VStr now);
        ("metadata"%string,
         Server.VObj
           [("runId"%string, Server.get "runId" reqBody);
            ("runUrl"%string, Server.get "runUrl" reqBody);
            ("repository"%string, Server.get "repository" reqBody);
            ("failedJobs"%string, Server.get "failedJobs" reqBody)])]).

End Reading.

Import Reading.

(** ** The log fetcher: [getWorkflowRunLogs] *)

Module LogFetcher.

Record LogsRequest : Type := mkLogsRequest {
  logs_url : string;
  responseType : string
}.

Section Fetch.

(** [axios.get] with a binary response type resolves to the bytes. *)
Variable axios_get_binary : LogsRequest -> completion (list Byte.byte).

Definition getWorkflowRunLogs (owner repo : string) (runId : Z)
  : completion (list Byte.byte) :=
  try_catch
    (let url := (GitHub.baseURL ++ "/repos/" ++ owner ++ "/" ++ repo
                   ++ "/actions/runs/" ++ GitHub.number_text runId
                   ++ "/logs")%string in
     data <- axios_get_binary (mkLogsRequest url "arraybuffer") ;;
     Normal data)
    (fun error => Throw error).

End Fetch.

End LogFetcher.

(** ** Further vocabulary *)

Module Notions.

(** The requests of [getWorkflowRunJobs] and [getWorkflowRunLogs]. *)
Definition jobsRequest (owner repo : string) (run : Z) : GitHub.Request :=
  GitHub.mkRequest
    (GitHub.baseURL ++ "/repos/" ++ owner ++ "/" ++ repo
       ++ "/actions/runs/" ++ GitHub.number_text run ++ "/jobs")%string
    (GitHub.mkParams None None None None).

Definition logsRequest (owner repo : string) (run : Z)
  : LogFetcher.LogsRequest :=
  LogFetcher.mkLogsRequest
    (GitHub.baseURL ++ "/repos/" ++ owner ++ "/" ++ repo
       ++ "/actions/runs/" ++ GitHub.number_text run ++ "/logs")%string
    "arraybuffer".

(** The matched substrings themselves, read off the rest of the text: what
    [scan] records, without the positions. *)
Fixpoint found (p : regex) (s : jsstring) (skip : nat) : list jsstring :=
  match s with
  | [] =>
      match skip, matchHere p [] with
      | O, Some n => [firstn n []]
      | _, _ => []
      end
  | _ :: s' =>
      match skip with
      | S k => found p s' k
      | O =>
          match matchHere p s with
          | Some n => firstn n s :: found p s' (n - 1)
          | None => found p s' 0
          end
      end
  end.

(** [x] occurs in [text] as a run of consecutive code units. *)
Definition occursIn (text x : jsstring) : Prop :=
  exists before after, text = before ++ x ++ after.

Definition noLineTerminator (x : jsstring) : bool :=
  forallb (fun c => negb (isLineTerminator c)) x.

(** The matches of the four distinct expressions of [errorPatterns]. *)
Definition errorMatches (text : jsstring) : list jsstring :=
  matchAll (markerPattern (js "Error:")) text.
Definition failedMatches (text : jsstring) : list jsstring :=
  matchAll (markerPattern (js "Failed:")) text.
Definition bracketMatches (text : jsstring) : list jsstring :=
  matchAll (markerPattern (js "[error]")) text.
Definition fatalMatches (text : jsstring) : list jsstring :=
  matchAll (markerPattern (js "fatal:")) text.

(** The fields of the body that the reply echoes. *)
Definition echoedKeys : list string :=
  ["runId"; "runUrl"; "repository"; "failedJobs"]%string.

Definition failingApi (message : string) (_ : GitHub.Request)
  : completion GitHub.ResponseData :=
  Throw message.

Definition failingLogsApi (message : string) (_ : LogFetcher.LogsRequest)
  : completion (list Byte.byte) :=
  Throw message.

(** The runs request for [o/r], [ci.yml] is rejected; every other request
    is answered with the scenario's jobs. *)
Definition runsDownApi (request : GitHub.Request)
  : completion GitHub.ResponseData :=
  if String.eqb (GitHub.url request)
       (GitHub.url (failedRunsRequest "o" "r" "ci.yml"))
  then Throw "Request failed with status code 404"
  else Normal (GitHub.mkData None (Some scenarioJobs)).

(** A reply without [workflow_runs] and without [jobs]. *)
Definition bareApi (_ : GitHub.Request) : completion GitHub.ResponseData :=
  Normal (GitHub.mkData None None).

Definition scenarioApi (_ : GitHub.Request)
  : completion GitHub.ResponseData :=
  Normal (GitHub.mkData None (Some scenarioJobs)).

(** Thirty error lines and then a fatal one. *)
Definition crowdedLog : jsstring := thirtyErrors ++ js "fatal: out of disk".

End Notions.

Import Notions.

(** * Properties *)

Unset Implicit Arguments.

(** ** The matcher *)

Lemma errorPatterns_markers : errorPatterns = map markerPattern markers.
Proof. reflexivity. Qed.

Lemma matchHere_dotplus (s : jsstring) :
  matchHere [DotPlus] s =
  match length (lineRest s) with
  | O => None
  | S k => Some (S k)
  end.
Proof.
  induction s as [|x s IH]; [reflexivity|].
  cbn [matchHere lineRest] in *.
  destruct (isLineTerminator x); [reflexivity|].
  rewrite IH. cbn [length].
  destruct (length (lineRest s)); reflexivity.
Qed.

Lemma matchHere_marker (marker s : jsstring) :
  matchHere (markerPattern marker) s =
  if startsWith marker s then
    match length (lineRest (skipn (length marker) s)) with
    | O => None
    | S k => Some (length marker + S k)
    end
  else None.
Proof.
  unfold markerPattern.
  revert s; induction marker as [|c marker IH]; intros s.
  - cbn [map app startsWith length skipn]. apply matchHere_dotplus.
  - destruct s as [|x s]; [reflexivity|].
    cbn [map app matchHere startsWith length skipn].
    destruct (chr_matches c x); [|reflexivity].
    rewrite IH. cbn [andb].
    destruct (startsWith marker s); [|reflexivity].
    destruct (length (lineRest (skipn (length marker) s))); reflexivity.
Qed.

Lemma ascending_weaken (a b : nat) (ms : list (nat * nat)) :
  b <= a -> ascending a ms -> ascending b ms.
Proof.
  destruct ms as [|[start len] rest]; cbn; [trivial|].
  intros Hba [H1 H2]. split; [lia|exact H2].
Qed.

Section Scan.

Variable p : regex.

Lemma scan_ascending (s : jsstring) :
  forall skip pos, ascending (pos + skip) (scan p s skip pos).
Proof.
  induction s as [|x s IH]; intros skip pos; cbn [scan].
  - destruct skip; [|exact I].
    destruct (matchHere p []); cbn; [lia|exact I].
  - destruct skip as [|k].
    + destruct (matchHere p (x :: s)) as [n|].
      * cbn [ascending]. split; [lia|].
        replace (pos + Nat.max 1 n) with (S pos + (n - 1)) by lia.
        apply IH.
      * apply ascending_weaken with (a := S pos + 0); [lia|apply IH].
    + replace (pos + S k) with (S pos + k) by lia. apply IH.
Qed.

Lemma scan_sound (s : jsstring) :
  forall skip pos i n,
    In (i, n) (scan p s skip pos) ->
    pos + skip <= i /\ i <= pos + length s /\
    matchHere p (skipn (i - pos) s) = Some n.
Proof.
  induction s as [|x s IH]; intros skip pos i n; cbn [scan].
  - destruct skip; [|intros []].
    destruct (matchHere p []) as [m|] eqn:E; [|intros []].
    intros [H|[]]. injection H as <- <-.
    rewrite Nat.sub_diag. cbn. repeat split; try lia. exact E.
  - destruct skip as [|k].
    + destruct (matchHere p (x :: s)) as [m|] eqn:E.
      * intros [H|H].
        -- injection H as <- <-. rewrite Nat.sub_diag. cbn [skipn length].
           repeat split; try lia. exact E.
        -- apply IH in H. destruct H as (H1 & H2 & H3).
           cbn [length]. repeat split; try lia.
           replace (i - pos) with (S (i - S pos)) by lia. exact H3.
      * intros H. apply IH in H. destruct H as (H1 & H2 & H3).
        cbn [length]. repeat split; try lia.
        replace (i - pos) with (S (i - S pos)) by lia. exact H3.
    + intros H. apply IH in H. destruct H as (H1 & H2 & H3).
      cbn [length]. repeat split; try lia.
      replace (i - pos) with (S (i - S pos)) by lia. exact H3.
Qed.

(** A position where the pattern matches is the start of a recorded match,
    unless it lies inside an earlier recorded match. *)
Lemma scan_complete (s : jsstring) :
  forall skip pos i n,
    skip <= i -> i <= length s ->
    matchHere p (skipn i s) = Some n ->
    In (pos + i, n) (scan p s skip pos) \/
    exists j m, In (j, m) (scan p s skip pos) /\ j < pos + i < j + m.
Proof.
  induction s as [|x s IH]; intros skip pos i n Hs Hi Hm; cbn [scan].
  - cbn in Hi. assert (i = 0) by lia. subst i.
    assert (skip = 0) by lia. subst skip.
    cbn in Hm. rewrite Hm. left. rewrite Nat.add_0_r. now left.
  - cbn [length] in Hi.
    assert (Lift : forall k l,
      In (S pos + k, n) l \/
        (exists j m, In (j, m) l /\ j < S pos + k < j + m) ->
      forall hd, In (pos + S k, n) (hd ++ l) \/
        (exists j m, In (j, m) (hd ++ l) /\ j < pos + S k < j + m)).
    { intros k l [H|(j & m & H & Hj)] hd.
      - left. apply in_or_app. right.
        replace (pos + S k) with (S pos + k) by lia. exact H.
      - right. exists j, m. split; [apply in_or_app; now right|lia]. }
    destruct skip as [|k].
    + destruct i as [|i'].
      * cbn [skipn] in Hm. rewrite Hm. left. rewrite Nat.add_0_r. now left.
      * cbn [skipn] in Hm.
        destruct (matchHere p (x :: s)) as [m|] eqn:E.
        -- destruct (le_lt_dec (m - 1) i') as [Hle|Hlt].
           ++ apply (Lift i' _ (IH (m - 1) (S pos) i' n Hle ltac:(lia) Hm)
                       [(pos, m)]).
           ++ right. exists pos, m. split; [now left|lia].
        -- apply (Lift i' _ (IH 0 (S pos) i' n ltac:(lia) ltac:(lia) Hm) []).
    + destruct i as [|i']; [lia|]. cbn [skipn] in Hm.
      apply (Lift i' _ (IH k (S pos) i' n ltac:(lia) ltac:(lia) Hm) []).
Qed.

Lemma In_matchAll (text x : jsstring) :
  In x (matchAll p text) <->
  exists i n, In (i, n) (scan p text 0 0) /\ x = firstn n (skipn i text).
Proof.
  unfold matchAll. rewrite in_map_iff. split.
  - intros ([i n] & <- & H). now exists i, n.
  - intros (i & n & H & ->). now exists (i, n).
Qed.

End Scan.

Lemma collectErrors_concat (logText : jsstring) :
  collectErrors logText =
  concat (map (fun pattern => matchAll pattern logText) errorPatterns).
Proof.
  unfold collectErrors.
  assert (G : forall ps acc,
    fold_left
      (fun errors pattern =>
         match jsmatch pattern logText with
         | Some matches => errors ++ matches
         | None => errors
         end) ps acc
    = acc ++ concat (map (fun pattern => matchAll pattern logText) ps)).
  { induction ps as [|q ps IH]; intros acc; cbn [fold_left map concat].
    - now rewrite app_nil_r.
    - rewrite IH. unfold jsmatch.
      destruct (matchAll q logText) as [|y l].
      + reflexivity.
      + now rewrite <- app_assoc. }
  apply (G errorPatterns []).
Qed.

(** ** Matched fragments: from a marker to the end of its line *)

Lemma firstn_lineRest (s : jsstring) :
  firstn (length (lineRest s)) s = lineRest s.
Proof.
  induction s as [|x s IH]; [reflexivity|].
  cbn [lineRest]. destruct (isLineTerminator x); [reflexivity|].
  cbn [length firstn]. now rewrite IH.
Qed.

Lemma In_firstn {A : Type} (n : nat) (l : list A) (x : A) :
  In x (firstn n l) -> In x l.
Proof.
  revert l; induction n as [|n IH]; intros [|y l]; cbn; try tauto.
  intros [H|H]; [now left|right; now apply IH].
Qed.

Lemma firstn_plus {A : Type} (a b : nat) (l : list A) :
  firstn (a + b) l = firstn a l ++ firstn b (skipn a l).
Proof.
  revert l; induction a as [|a IH]; intros l; [reflexivity|].
  destruct l as [|x l]; cbn [Nat.add firstn skipn app].
  - now rewrite firstn_nil.
  - now rewrite IH.
Qed.

Lemma noLF_lineRest (s : jsstring) : noLF (lineRest s) = true.
Proof.
  induction s as [|x s IH]; [reflexivity|].
  cbn [lineRest]. destruct (isLineTerminator x) eqn:E; [reflexivity|].
  cbn [noLF forallb]. fold (noLF (lineRest s)). rewrite IH, andb_true_r.
  unfold isLineTerminator in E. destruct (x =? 10)%N; [discriminate|reflexivity].
Qed.

Lemma noLF_app (x y : jsstring) : noLF (x ++ y) = noLF x && noLF y.
Proof. apply forallb_app. Qed.

Lemma startsWith_noLF (marker s : jsstring) :
  forallb (fun c => negb (canonicalize c =? 10)%N) marker = true ->
  startsWith marker s = true ->
  noLF (firstn (length marker) s) = true.
Proof.
  revert s; induction marker as [|c marker IH]; intros s Hm Hs; [reflexivity|].
  destruct s as [|x s]; [discriminate|].
  cbn [forallb] in Hm. cbn [startsWith] in Hs.
  apply andb_prop in Hm. destruct Hm as [Hc Hm].
  apply andb_prop in Hs. destruct Hs as [Hx Hs].
  cbn [length firstn noLF forallb].
  fold (noLF (firstn (length marker) s)). rewrite (IH s Hm Hs), andb_true_r.
  unfold chr_matches in Hx. apply N.eqb_eq in Hx.
  destruct (N.eqb_spec x 10) as [->|]; [|reflexivity].
  rewrite <- Hx in Hc. discriminate.
Qed.

Lemma markers_no_LF (marker : jsstring) :
  In marker markers ->
  forallb (fun c => negb (canonicalize c =? 10)%N) marker = true.
Proof.
  intros H. cbn in H.
  repeat (destruct H as [<-|H]; [vm_compute; reflexivity|]). destruct H.
Qed.

Lemma matchedIn_noLF (text x : jsstring) : matchedIn text x -> noLF x = true.
Proof.
  intros (marker & i & Hin & _ & Hs & _ & ->).
  unfold fragment. rewrite noLF_app, noLF_lineRest, andb_true_r.
  apply startsWith_noLF; [now apply markers_no_LF|exact Hs].
Qed.

Lemma matchedIn_nonempty (text x : jsstring) : matchedIn text x -> x <> [].
Proof.
  intros (marker & i & _ & _ & _ & Hr & ->) E.
  unfold fragment in E. apply app_eq_nil in E. now destruct E.
Qed.

(** What a marker pattern matches at a position is the fragment there. *)
Lemma matchHere_fragment (marker s : jsstring) (n : nat) :
  matchHere (markerPattern marker) s = Some n ->
  startsWith marker s = true /\
  lineRest (skipn (length marker) s) <> [] /\
  firstn n s = fragment marker s.
Proof.
  rewrite matchHere_marker.
  destruct (startsWith marker s); [|discriminate].
  destruct (length (lineRest (skipn (length marker) s))) as [|k] eqn:E;
    [discriminate|].
  intros H. injection H as <-. split; [reflexivity|]. split.
  - intros E'. rewrite E' in E. discriminate.
  - unfold fragment. rewrite firstn_plus, <- E. now rewrite firstn_lineRest.
Qed.

Lemma matchAll_matchedIn (marker text x : jsstring) :
  In marker markers ->
  In x (matchAll (markerPattern marker) text) -> matchedIn text x.
Proof.
  intros Hin Hx. apply In_matchAll in Hx. destruct Hx as (i & n & Hs & ->).
  apply scan_sound in Hs. destruct Hs as (_ & Hi & Hm).
  rewrite Nat.sub_0_r in Hm. cbn in Hi.
  apply matchHere_fragment in Hm. destruct Hm as (H1 & H2 & H3).
  exists marker, i. repeat split; assumption.
Qed.

Lemma collectErrors_matchedIn (text x : jsstring) :
  In x (collectErrors text) -> matchedIn text x.
Proof.
  rewrite collectErrors_concat, errorPatterns_markers, map_map, in_concat.
  intros (l & Hl & Hx). apply in_map_iff in Hl.
  destruct Hl as (marker & <- & Hin).
  now apply matchAll_matchedIn with marker.
Qed.

(** A match of any pattern at any position makes [errors] non-empty. *)
Lemma match_collectErrors (text : jsstring) (pattern : regex) (i n : nat) :
  In pattern errorPatterns -> i <= length text ->
  matchHere pattern (skipn i text) = Some n ->
  collectErrors text <> [].
Proof.
  intros Hp Hi Hm E.
  assert (Hs : scan pattern text 0 0 <> []).
  { destruct (@scan_complete pattern text 0 0 i n (Nat.le_0_l i) Hi Hm)
      as [H|(j & m & H & _)]; intros E'; rewrite E' in H; exact H. }
  rewrite collectErrors_concat in E.
  assert (Hall : forall l, In l (map (fun q => matchAll q text) errorPatterns)
                           -> l = []).
  { clear -E. revert E.
    generalize (map (fun q => matchAll q text) errorPatterns).
    induction l as [|a l IH]; cbn; [tauto|].
    intros E0 l0 [<-|H]; apply app_eq_nil in E0; destruct E0; auto. }
  specialize (Hall (matchAll pattern text)
                (in_map (fun q => matchAll q text) _ _ Hp)).
  unfold matchAll in Hall. apply map_eq_nil in Hall. contradiction.
Qed.

(** ** Joining and splitting on the newline *)

Lemma lines_noLF (x : jsstring) : noLF x = true -> lines x = [x].
Proof.
  induction x as [|c x IH]; [reflexivity|].
  cbn [noLF forallb]. intros H. apply andb_prop in H. destruct H as [Hc Hx].
  cbn [lines]. destruct (c =? 10)%N; [discriminate|].
  now rewrite (IH Hx).
Qed.

Lemma lines_app_nl (x rest : jsstring) :
  noLF x = true -> lines (x ++ nl ++ rest) = x :: lines rest.
Proof.
  induction x as [|c x IH]; [reflexivity|].
  cbn [noLF forallb]. intros H. apply andb_prop in H. destruct H as [Hc Hx].
  cbn [app lines]. destruct (c =? 10)%N; [discriminate|].
  fold (x ++ nl ++ rest). now rewrite (IH Hx).
Qed.

Lemma lines_join (l : list jsstring) :
  l <> [] -> Forall (fun x => noLF x = true) l -> lines (join nl l) = l.
Proof.
  induction l as [|x l IH]; [congruence|].
  intros _ H. inversion H as [|? ? Hx Hl]; subst.
  destruct l as [|y l].
  - cbn [join]. now apply lines_noLF.
  - change (join nl (x :: y :: l)) with (x ++ nl ++ join nl (y :: l)).
    rewrite (lines_app_nl x _ Hx). f_equal. apply IH; [discriminate|exact Hl].
Qed.

Lemma join_nonempty (sep x : jsstring) (l : list jsstring) :
  x <> [] -> join sep (x :: l) <> [].
Proof.
  intros Hx E. destruct l; cbn [join] in E.
  - contradiction.
  - apply app_eq_nil in E. now destruct E.
Qed.

(** ** The two tiers of [extractErrorExcerpt] *)

Lemma excerpt_matched (text : jsstring) :
  collectErrors text <> [] ->
  extractErrorExcerpt text = join nl (firstn 50 (collectErrors text)) /\
  extractErrorExcerpt text <> [].
Proof.
  intros Hne. unfold extractErrorExcerpt, slice_first.
  assert (Hj : join nl (firstn 50 (collectErrors text)) <> []).
  { destruct (collectErrors text) as [|x l] eqn:E; [congruence|].
    cbn [firstn]. apply join_nonempty.
    apply matchedIn_nonempty with text, collectErrors_matchedIn.
    rewrite E. now left. }
  destruct (join nl (firstn 50 (collectErrors text))) as [|c r] eqn:E;
    [congruence|].
  cbn [length Nat.ltb Nat.leb]. split; [reflexivity|discriminate].
Qed.

Lemma excerpt_unmatched (text : jsstring) :
  collectErrors text = [] ->
  extractErrorExcerpt text = slice_last 2000 text.
Proof.
  intros E. unfold extractErrorExcerpt. now rewrite E.
Qed.

Lemma excerpt_lines (text : jsstring) :
  collectErrors text <> [] ->
  lines (extractErrorExcerpt text) = firstn 50 (collectErrors text).
Proof.
  intros Hne. destruct (excerpt_matched text Hne) as [-> _].
  apply lines_join.
  - destruct (collectErrors text); [congruence|discriminate].
  - apply Forall_forall. intros x Hx. apply matchedIn_noLF with text.
    apply collectErrors_matchedIn. now apply In_firstn with 50.
Qed.

Lemma slice_last_isTail (n : nat) (text : jsstring) :
  isTail n text (slice_last n text).
Proof.
  unfold isTail, slice_last. split.
  - rewrite length_skipn. lia.
  - exists (firstn (length text - n) text). symmetry. apply firstn_skipn.
Qed.

(** ** Claims on the pattern extractor *)

(** The scenario of C1: the code returns the two lines twice, not the
    two-line string.  [Error:.+] and [ERROR:.+] are the same expression
    under the [i] flag, so the loop collects both lines once for each of
    them, and the code then logs four 'error lines' for a text that has
    two. *)
Lemma C1_scenario_is_not_two_lines :
  extractErrorExcerpt scenarioLog = scenarioFourLines /\
  scenarioFourLines <> scenarioTwoLines.
Proof. split; [vm_compute; reflexivity|vm_compute; discriminate]. Qed.

(** C1: what the code does.  On the scenario it returns the two lines
    twice, where the claim has them once: the defect of the doubled
    expressions.  The ordering the claim states holds of the code: for
    every log text, [errors] is the concatenation, in the declared pattern
    order, of the groups of matches of each pattern, each group holding all
    the matches of its pattern in document order, and a non-empty [errors]
    is returned as its first 50 entries joined by newlines. *)
Theorem C1_groups_in_pattern_order :
  extractErrorExcerpt scenarioLog = scenarioFourLines /\
  forall text : jsstring,
    collectErrors text
      = concat (map (fun p => matchAll p text) errorPatterns) /\
    (forall p, In p errorPatterns ->
       allMatchesInOrder p text (matchAll p text)) /\
    (collectErrors text <> [] ->
     extractErrorExcerpt text = join nl (firstn 50 (collectErrors text))).
Proof.
  split; [vm_compute; reflexivity|].
  intros text. split; [apply collectErrors_concat|]. split.
  - intros p _. exists (scan p text 0 0). split; [reflexivity|]. split.
    + apply (scan_ascending p text 0 0).
    + split.
      * intros i n H. apply scan_sound in H. destruct H as (_ & H1 & H2).
        rewrite Nat.sub_0_r in H2. cbn in H1. now split.
      * intros i n Hi Hm.
        apply (scan_complete p text 0 0 i n (Nat.le_0_l i) Hi Hm).
  - intros H. apply (excerpt_matched text H).
Qed.

Lemma C1_groups_in_pattern_order_witness :
  collectErrors scenarioLog <> [] /\
  extractErrorExcerpt scenarioLog
    = join nl (firstn 50 (collectErrors scenarioLog)).
Proof.
  assert (H : collectErrors scenarioLog <> []) by (vm_compute; discriminate).
  split; [exact H|].
  exact (proj2 (proj2 (proj2 C1_groups_in_pattern_order scenarioLog)) H).
Defined.

(** C2, as stated, fails twice.  In ["x Error: y"] no line begins with a
    marker, yet the patterns match and the excerpt is the matched text; in
    ["Error:\nfoo"] a line begins with a marker, yet nothing matches ([.+]
    needs a character after the marker) and the tail fallback is returned,
    unmatched line included. *)
Lemma C2_markers_need_not_begin_a_line :
  (existsb beginsWithMarker (lines midLineLog) = false /\
   extractErrorExcerpt midLineLog = js "Error: y" ++ nl ++ js "Error: y") /\
  (existsb beginsWithMarker (lines bareMarkerLog) = true /\
   collectErrors bareMarkerLog = [] /\
   extractErrorExcerpt bareMarkerLog = bareMarkerLog).
Proof. vm_compute. repeat split; reflexivity. Qed.

(** C2, amended: a pattern matches at a position only where one of the
    markers occurs there (letter case ignored, anywhere in a line) with at
    least one more character before the end of the line, and what it matches
    runs from the marker to the end of the line; for every log text with such
    an occurrence the output is non-empty and its lines are the first 50
    entries of [errors], each of them such a matched fragment (no tail
    fallback). *)
Theorem C2_marker_occurrences :
  (forall (text : jsstring) (p : regex) (i n : nat),
     In p errorPatterns ->
     matchHere p (skipn i text) = Some n ->
     exists marker,
       In marker markers /\
       startsWith marker (skipn i text) = true /\
       lineRest (skipn (length marker) (skipn i text)) <> [] /\
       firstn n (skipn i text) = fragment marker (skipn i text)) /\
  (forall (text marker : jsstring) (i : nat),
     In marker markers ->
     startsWith marker (skipn i text) = true ->
     lineRest (skipn (length marker) (skipn i text)) <> [] ->
     extractErrorExcerpt text <> [] /\
     lines (extractErrorExcerpt text) = firstn 50 (collectErrors text) /\
     Forall (matchedIn text) (lines (extractErrorExcerpt text))).
Proof.
  split.
  - intros text p i n Hp Hm.
    rewrite errorPatterns_markers in Hp. apply in_map_iff in Hp.
    destruct Hp as (marker & <- & Hin).
    apply matchHere_fragment in Hm. destruct Hm as (H1 & H2 & H3).
    exists marker. repeat split; assumption.
  - intros text marker i Hin Hs Hr.
    assert (Hi : i <= length text).
    { destruct (le_lt_dec i (length text)) as [H|H]; [exact H|].
      rewrite (skipn_all2 text) in Hr by lia.
      rewrite skipn_nil in Hr. now contradiction Hr. }
    assert (Hne : collectErrors text <> []).
    { pose proof (matchHere_marker marker (skipn i text)) as Hm.
      rewrite Hs in Hm.
      destruct (length (lineRest (skipn (length marker) (skipn i text))))
        as [|k] eqn:E.
      - destruct (lineRest (skipn (length marker) (skipn i text)));
          [now contradiction Hr|discriminate].
      - apply (match_collectErrors text (markerPattern marker) i _) with (3 := Hm);
          [|exact Hi].
        rewrite errorPatterns_markers. now apply in_map. }
    split; [apply (excerpt_matched text Hne)|].
    split; [apply (excerpt_lines text Hne)|].
    rewrite (excerpt_lines text Hne). apply Forall_forall. intros x Hx.
    apply collectErrors_matchedIn. now apply In_firstn with 50.
Qed.

Lemma C2_marker_occurrences_witness :
  extractErrorExcerpt midLineLog <> [] /\
  lines (extractErrorExcerpt midLineLog)
    = firstn 50 (collectErrors midLineLog) /\
  Forall (matchedIn midLineLog) (lines (extractErrorExcerpt midLineLog)).
Proof.
  apply (proj2 C2_marker_occurrences midLineLog (js "Error:") 2).
  - left. reflexivity.
  - reflexivity.
  - vm_compute. discriminate.
Defined.

(** C4: when no pattern matches anywhere in the log text, the excerpt is
    the last [min 2000 (length text)] code units of the text. *)
Theorem C4_tail_fallback (text : jsstring) :
  (forall p, In p errorPatterns -> jsmatch p text = None) ->
  extractErrorExcerpt text = slice_last 2000 text /\
  isTail 2000 text (extractErrorExcerpt text).
Proof.
  intros Hnone.
  assert (E : collectErrors text = []).
  { rewrite collectErrors_concat.
    induction errorPatterns as [|q ps IH]; [reflexivity|].
    cbn [map concat].
    assert (Hq : matchAll q text = []).
    { specialize (Hnone q (or_introl eq_refl)). unfold jsmatch in Hnone.
      destruct (matchAll q text); [reflexivity|discriminate]. }
    rewrite Hq. cbn [app]. apply IH. intros p Hp. apply Hnone. now right. }
  rewrite (excerpt_unmatched text E).
  split; [reflexivity|apply slice_last_isTail].
Qed.

Lemma C4_tail_fallback_witness :
  extractErrorExcerpt (js "build ok") = slice_last 2000 (js "build ok") /\
  isTail 2000 (js "build ok") (extractErrorExcerpt (js "build ok")).
Proof.
  apply (C4_tail_fallback (js "build ok")).
  intros p Hp. cbn in Hp.
  repeat (destruct Hp as [<-|Hp]; [vm_compute; reflexivity|]). destruct Hp.
Defined.

(** C5: whatever the number of matches, the output built from pattern
    matches has at most 50 lines: it has [min 50 (length errors)] lines. *)
Theorem C5_at_most_50_lines (text : jsstring) :
  collectErrors text <> [] ->
  length (lines (extractErrorExcerpt text))
    = Nat.min 50 (length (collectErrors text)) /\
  length (lines (extractErrorExcerpt text)) <= 50.
Proof.
  intros Hne. rewrite (excerpt_lines text Hne), length_firstn. lia.
Qed.

Lemma C5_at_most_50_lines_witness :
  length (collectErrors thirtyErrors) = 60 /\
  length (lines (extractErrorExcerpt thirtyErrors)) = 50.
Proof.
  assert (H : collectErrors thirtyErrors <> []) by (vm_compute; discriminate).
  assert (L : length (collectErrors thirtyErrors) = 60)
    by (vm_compute; reflexivity).
  split; [exact L|].
  rewrite (proj1 (C5_at_most_50_lines thirtyErrors H)), L. reflexivity.
Defined.

(** C8: a non-empty log text yields a non-empty excerpt. *)
Theorem C8_nonempty_excerpt (text : jsstring) :
  text <> [] -> extractErrorExcerpt text <> [].
Proof.
  intros Ht.
  destruct (collectErrors text) as [|x l] eqn:E.
  - rewrite (excerpt_unmatched text E). unfold slice_last. intros H.
    apply (f_equal (@length _)) in H. rewrite length_skipn in H. cbn in H.
    destruct text as [|c t]; [congruence|]. cbn [length] in H. lia.
  - apply excerpt_matched. rewrite E. discriminate.
Qed.

Lemma C8_nonempty_excerpt_witness :
  js "x" <> [] /\ extractErrorExcerpt (js "x") <> [].
Proof.
  assert (H : js "x" <> []) by discriminate.
  split; [exact H|apply (C8_nonempty_excerpt (js "x") H)].
Defined.

(** C9, as stated, fails on malformed bytes: the byte [0xFF] is not UTF-8,
    and [extractErrorsFromLogs] returns the decoded text, U+FFFD, not the
    'unable to parse' string. *)
Lemma C9_malformed_bytes_are_decoded :
  Utf8.decode [Byte.xff] = [Utf8.replacement] /\
  extractErrorsFromLogs (LogBuffer [Byte.xff]) = Normal [Utf8.replacement] /\
  [Utf8.replacement] <> unableToParse.
Proof. vm_compute. repeat split; try reflexivity. discriminate. Qed.

(** C9, amended: [extractErrorsFromLogs] never raises, whatever its input;
    it returns 'Unable to parse log content' when turning the input into text
    throws, and for a buffer of bytes, malformed or not, it returns the
    excerpt of the decoded text. *)
Theorem C9_never_raises (logBuffer : logInput) :
  exists out : jsstring,
    extractErrorsFromLogs logBuffer = Normal out /\
    ((exists message, toString logBuffer = Throw message) ->
     out = unableToParse) /\
    (forall bytes, logBuffer = LogBuffer bytes ->
     out = extractErrorExcerpt (Utf8.decode bytes)) /\
    (forall text, logBuffer = LogString text ->
     out = extractErrorExcerpt text).
Proof.
  destruct logBuffer as [| |bs|t].
  - exists unableToParse. split; [reflexivity|]. split; [reflexivity|].
    split; intros x H; discriminate.
  - exists unableToParse. split; [reflexivity|]. split; [reflexivity|].
    split; intros x H; discriminate.
  - exists (extractErrorExcerpt (Utf8.decode bs)). split; [reflexivity|].
    split; [intros (m & H); discriminate|]. split.
    + intros bytes H. injection H as <-. reflexivity.
    + intros text H. discriminate.
  - exists (extractErrorExcerpt t). split; [reflexivity|].
    split; [intros (m & H); discriminate|]. split.
    + intros bytes H. discriminate.
    + intros text H. injection H as <-. reflexivity.
Qed.

Lemma C9_never_raises_witness :
  exists out : jsstring,
    extractErrorsFromLogs LogNull = Normal out /\ out = unableToParse.
Proof.
  destruct (C9_never_raises LogNull) as (out & H1 & H2 & _).
  exists out. split; [exact H1|].
  apply H2. eexists. reflexivity.
Defined.

(** ** Claims on the run locator and the failure summarizer *)

Import GitHub.

(** C6: [getLastFailedRun] returns the element at index 0 of the sequence
    the API returned, whatever the dates of the runs, and [null] ([None]),
    as a normal result, when the sequence is empty. *)
Theorem C6_first_run_of_the_api_order
  (axios_get : Request -> completion ResponseData)
  (owner repo workflowId : string) (data : ResponseData) :
  axios_get (failedRunsRequest owner repo workflowId) = Normal data ->
  getLastFailedRun axios_get owner repo workflowId
    = Normal (nth_error (or_empty (workflow_runs data)) 0) /\
  (forall first rest,
     or_empty (workflow_runs data) = first :: rest ->
     getLastFailedRun axios_get owner repo workflowId = Normal (Some first)) /\
  (or_empty (workflow_runs data) = [] ->
   getLastFailedRun axios_get owner repo workflowId = Normal None).
Proof.
  intros Hget.
  assert (E : getLastFailedRun axios_get owner repo workflowId
              = Normal (nth_error (or_empty (workflow_runs data)) 0)).
  { unfold getLastFailedRun, getWorkflowRuns.
    change (truthy_string "completed") with (Some "completed"%string).
    change (truthy_string "failure") with (Some "failure"%string).
    unfold failedRunsRequest in Hget. rewrite Hget. cbn [bind try_catch].
    destruct (or_empty (workflow_runs data)) as [|first rest]; reflexivity. }
  split; [exact E|]. split.
  - intros first rest H. rewrite E, H. reflexivity.
  - intros H. rewrite E, H. reflexivity.
Qed.

Lemma C6_first_run_of_the_api_order_witness :
  getLastFailedRun unsortedApi "o" "r" "ci.yml" = Normal (Some olderRun) /\
  getLastFailedRun emptyApi "o" "r" "ci.yml" = Normal None.
Proof.
  split.
  - apply (proj1 (proj2 (C6_first_run_of_the_api_order unsortedApi
             "o" "r" "ci.yml" _ eq_refl)) olderRun [newerRun]).
    reflexivity.
  - apply (proj2 (proj2 (C6_first_run_of_the_api_order emptyApi
             "o" "r" "ci.yml" _ eq_refl))).
    reflexivity.
Defined.

Lemma is_failure_spec (conclusion : option string) :
  is_failure conclusion = true <-> conclusion = Some "failure"%string.
Proof.
  destruct conclusion as [c|]; cbn.
  - rewrite String.eqb_eq. split; [now intros ->|now intros [= ->]].
  - split; discriminate.
Qed.

Lemma filter_StableFilter {A : Type} (keep : A -> bool) (l : list A) :
  StableFilter (fun x => keep x = true) l (filter keep l).
Proof.
  induction l as [|x l IH]; cbn [filter]; [constructor|].
  destruct (keep x) eqn:E.
  - now apply SF_keep.
  - apply SF_drop; [congruence|exact IH].
Qed.

Lemma StableFilter_ext {A : Type} (P Q : A -> Prop) (l kept : list A) :
  (forall x, P x <-> Q x) -> StableFilter P l kept -> StableFilter Q l kept.
Proof.
  intros HPQ H. induction H.
  - constructor.
  - apply SF_keep; [now apply HPQ|assumption].
  - apply SF_drop; [now rewrite <- HPQ|assumption].
Qed.

Lemma StableFilter_filter {A : Type} (P : A -> Prop) (keep : A -> bool)
  (l kept : list A) :
  (forall x, P x <-> keep x = true) ->
  StableFilter P l kept -> kept = filter keep l.
Proof.
  intros HP H. induction H as [|x l kept Hx _ IH|x l kept Hx _ IH];
    cbn [filter].
  - reflexivity.
  - apply HP in Hx. rewrite Hx. now f_equal.
  - destruct (keep x) eqn:E; [|exact IH].
    apply HP in E. contradiction.
Qed.

Lemma failedStepOf_shows (steps : list Step) :
  Forall2 showsStep steps (map failedStepOf steps).
Proof.
  induction steps as [|step steps IH]; cbn [map]; constructor;
    [|exact IH].
  unfold showsStep, failedStepOf. cbn. repeat split.
Qed.

Lemma failedJobOf_shows (job : Job) : showsJob job (failedJobOf job).
Proof.
  unfold showsJob, failedJobOf. cbn. repeat split.
  exists (filter (fun step => is_failure (step_conclusion step))
            (job_steps job)).
  split; [|apply failedStepOf_shows].
  apply StableFilter_ext
    with (P := fun step => is_failure (step_conclusion step) = true).
  - intros step. apply is_failure_spec.
  - apply filter_StableFilter.
Qed.

(** [extractFailureInfo] returns the summary of the jobs the API returned. *)
Lemma extractFailureInfo_summarizes
  (axios_get : Request -> completion ResponseData)
  (owner repo : string) (run : Z) :
  extractFailureInfo axios_get owner repo run
  = (fetched <- getWorkflowRunJobs axios_get owner repo run ;;
     Normal (summarizeFailures run fetched)).
Proof.
  unfold extractFailureInfo.
  destruct (getWorkflowRunJobs axios_get owner repo run); reflexivity.
Qed.

(** C7: the report keeps exactly the jobs whose conclusion is [failure], in
    their order, each shown with its own name, conclusion and times, and of
    each kept job exactly the steps whose conclusion is [failure], in their
    order, each shown with its own name, number, conclusion and times;
    [failedJobsCount] is the length of the sequence of failed jobs; the
    report is fixed by the run id and the failed jobs alone, so that a
    second application to the same job sequence, or to any sequence with
    the same failed jobs, gives an equal report. *)
Theorem C7_summarizeFailures (run : Z) (fetched : list Job) :
  (exists kept : list Job,
     StableFilter (fun job => job_conclusion job = Some "failure"%string)
       fetched kept /\
     Forall2 showsJob kept (failedJobs (summarizeFailures run fetched))) /\
  failedJobsCount (summarizeFailures run fetched)
    = length (failedJobs (summarizeFailures run fetched)) /\
  runId (summarizeFailures run fetched) = run /\
  (forall again kept : list Job,
     StableFilter (fun job => job_conclusion job = Some "failure"%string)
       fetched kept ->
     StableFilter (fun job => job_conclusion job = Some "failure"%string)
       again kept ->
     summarizeFailures run again = summarizeFailures run fetched).
Proof.
  split; [|split; [|split]].
  - exists (filter (fun job => is_failure (job_conclusion job)) fetched).
    split.
    + apply StableFilter_ext
        with (P := fun job => is_failure (job_conclusion job) = true).
      * intros job. apply is_failure_spec.
      * apply filter_StableFilter.
    + cbn [summarizeFailures failedJobs].
      induction (filter (fun job => is_failure (job_conclusion job)) fetched)
        as [|job l IH]; cbn [map]; constructor;
        [apply failedJobOf_shows|exact IH].
  - cbn [summarizeFailures failedJobsCount failedJobs].
    now rewrite length_map.
  - reflexivity.
  - intros again kept Hf Ha.
    assert (Spec : forall job : Job,
              job_conclusion job = Some "failure"%string <->
              is_failure (job_conclusion job) = true).
    { intros job. symmetry. apply is_failure_spec. }
    apply (StableFilter_filter _ _ _ _ Spec) in Hf.
    apply (StableFilter_filter _ _ _ _ Spec) in Ha.
    unfold summarizeFailures. now rewrite <- Hf, <- Ha.
Qed.

Example summarizeFailures_scenario :
  summarizeFailures 7 scenarioJobs =
  mkFailureInfo 7 1
    [ mkFailedJob "build" (Some "failure"%string) None None
        [ mkFailedStep "compile" 1 (Some "failure"%string) None None ] ].
Proof. reflexivity. Qed.

Lemma C7_summarizeFailures_witness :
  summarizeFailures 7 scenarioWithCancelled
    = summarizeFailures 7 scenarioJobs /\
  failedJobsCount (summarizeFailures 7 scenarioJobs) = 1.
Proof.
  split.
  - apply (proj2 (proj2 (proj2 (C7_summarizeFailures 7 scenarioJobs)))
             scenarioWithCancelled scenarioFailedOnly).
    + apply SF_keep; [reflexivity|].
      apply SF_drop; [discriminate|apply SF_nil].
    + apply SF_drop; [discriminate|].
      apply SF_keep; [reflexivity|apply SF_nil].
  - rewrite (proj1 (proj2 (C7_summarizeFailures 7 scenarioJobs))).
    reflexivity.
Defined.

(** ** Claims on the push-mode endpoint *)

Import Server.

Lemma get_absent (key : string) (fields : list (string * value)) :
  lookup key fields = None -> get key (VObj fields) = VUndefined.
Proof. intros H. cbn [get]. now rewrite H. Qed.

Lemma analyze_falsy (now : string) (reqBody : value) :
  reqBody <> VUndefined -> reqBody <> VNull ->
  truthy (get "errorLog" reqBody) = false ->
  analyze now reqBody = Normal missingErrorLog.
Proof.
  intros H1 H2 Hf. unfold analyze.
  destruct reqBody; try congruence; cbn [destructurable bind];
    rewrite Hf; reflexivity.
Qed.

Lemma analyze_truthy (now : string) (reqBody : value) :
  reqBody <> VUndefined -> reqBody <> VNull ->
  truthy (get "errorLog" reqBody) = true ->
  analyze now reqBody
  = (_ <- substring500 (get "errorLog" reqBody) ;;
     Normal (received now reqBody)).
Proof.
  intros H1 H2 Ht. unfold analyze.
  destruct reqBody; try congruence; cbn [destructurable bind];
    rewrite Ht; reflexivity.
Qed.

(** C3, as stated, fails: a body whose [errorLog] is present and is the empty
    string gets the 400 reply, and one whose [errorLog] is present and is
    the number 5 gets no reply at all (the handler throws). *)
Lemma C3_present_errorLog_is_not_enough :
  (lookup "errorLog" [("errorLog"%string, VStr "")] = Some (VStr "") /\
   analyze timestamp (VObj [("errorLog"%string, VStr "")])
     = Normal missingErrorLog) /\
  (lookup "errorLog" [("errorLog"%string, VNum 5)] = Some (VNum 5) /\
   analyze timestamp (VObj [("errorLog"%string, VNum 5)])
     = Throw "errorLog.substring is not a function").
Proof. repeat split; reflexivity. Qed.

(** C3, amended: a JSON object is answered with the 400 missing-field reply
    if and only if its [errorLog] is absent or falsy; when [errorLog] is a
    non-empty string it is answered with 200, status "received" and a
    metadata object of [runId], [runUrl], [repository] and [failedJobs] as
    they are in the body, [undefined] for a field the body does not have. *)
Theorem C3_push_mode_validation
  (now : string) (fields : list (string * value)) :
  (analyze now (VObj fields) = Normal missingErrorLog <->
   truthy (get "errorLog" (VObj fields)) = false) /\
  (lookup "errorLog" fields = None ->
   analyze now (VObj fields) = Normal missingErrorLog) /\
  (forall log : string,
     lookup "errorLog" fields = Some (VStr log) -> log <> ""%string ->
     analyze now (VObj fields) = Normal (received now (VObj fields))) /\
  (forall key, lookup key fields = None ->
     get key (VObj fields) = VUndefined).
Proof.
  assert (Hobj : VObj fields <> VUndefined /\ VObj fields <> VNull)
    by (split; discriminate).
  destruct Hobj as [H1 H2].
  split; [|split; [|split]].
  - split.
    + intros Ha. destruct (truthy (get "errorLog" (VObj fields))) eqn:Ht;
        [|reflexivity].
      rewrite (analyze_truthy now _ H1 H2 Ht) in Ha.
      destruct (substring500 (get "errorLog" (VObj fields)));
        cbn [bind] in Ha; discriminate.
    + apply (analyze_falsy now _ H1 H2).
  - intros Habs. apply (analyze_falsy now _ H1 H2).
    now rewrite (get_absent "errorLog" fields Habs).
  - intros log Hl Hne.
    assert (Hg : get "errorLog" (VObj fields) = VStr log)
      by (cbn [get]; now rewrite Hl).
    rewrite (analyze_truthy now _ H1 H2).
    + rewrite Hg. reflexivity.
    + rewrite Hg. cbn [truthy].
      destruct (String.eqb_spec log ""); [contradiction|reflexivity].
  - intros key. apply get_absent.
Qed.

Lemma C3_push_mode_validation_witness :
  analyze timestamp (VObj [("errorLog"%string, VStr "x")])
  = Normal
      (mkResponse 200
         (VObj
            [("status"%string, VStr "received");
             ("message"%string,
              VStr "Failure data logged. AI analysis not yet implemented.");
             ("timestamp"%string, VStr timestamp);
             ("metadata"%string,
              VObj [("runId"%string, VUndefined);
                    ("runUrl"%string, VUndefined);
                    ("repository"%string, VUndefined);
                    ("failedJobs"%string, VUndefined)])])) /\
  analyze timestamp (VObj [("runId"%string, VNum 7)]) = Normal missingErrorLog.
Proof.
  split.
  - apply (proj1 (proj2 (proj2 (C3_push_mode_validation timestamp
             [("errorLog"%string, VStr "x")]))) "x"%string).
    + reflexivity.
    + discriminate.
  - apply (proj1 (proj2 (C3_push_mode_validation timestamp
             [("runId"%string, VNum 7)]))).
    reflexivity.
Defined.

(** C10: a body whose [errorLog] is present but falsy (the empty string, 0,
    [false], also [null]) gets the same 400 missing-field reply as a body
    without [errorLog]. *)
Theorem C10_falsy_errorLog_is_rejected
  (now : string) (fields : list (string * value)) (log : value) :
  lookup "errorLog" fields = Some log ->
  truthy log = false ->
  analyze now (VObj fields) = Normal missingErrorLog /\
  statusCode missingErrorLog = 400%Z /\
  (forall others : list (string * value),
     lookup "errorLog" others = None ->
     analyze now (VObj others) = analyze now (VObj fields)) /\
  truthy (VStr "") = false /\ truthy (VNum 0) = false /\
  truthy (VBool false) = false /\ truthy VNull = false.
Proof.
  intros Hl Hf.
  assert (E : analyze now (VObj fields) = Normal missingErrorLog).
  { apply analyze_falsy; try discriminate. cbn [get]. now rewrite Hl. }
  split; [exact E|]. split; [reflexivity|]. split.
  - intros others Ho. rewrite E.
    apply analyze_falsy; try discriminate.
    now rewrite (get_absent "errorLog" others Ho).
  - repeat split; reflexivity.
Qed.

Lemma C10_falsy_errorLog_is_rejected_witness :
  analyze timestamp
    (VObj [("errorLog"%string, VStr ""); ("runId"%string, VNum 7)])
  = Normal missingErrorLog /\
  analyze timestamp (VObj [("errorLog"%string, VNum 0)])
  = Normal missingErrorLog /\
  analyze timestamp (VObj [("errorLog"%string, VBool false)])
  = Normal missingErrorLog.
Proof.
  split; [|split].
  - exact (proj1 (C10_falsy_errorLog_is_rejected timestamp
             [("errorLog"%string, VStr ""); ("runId"%string, VNum 7)]
             (VStr "") eq_refl eq_refl)).
  - exact (proj1 (C10_falsy_errorLog_is_rejected timestamp
             [("errorLog"%string, VNum 0)] (VNum 0) eq_refl eq_refl)).
  - exact (proj1 (C10_falsy_errorLog_is_rejected timestamp
             [("errorLog"%string, VBool false)] (VBool false)
             eq_refl eq_refl)).
Defined.

(** * Further properties of the code *)

(** ** The pattern extractor *)

Lemma startsWith_canonical (m1 m2 : jsstring) :
  map canonicalize m1 = map canonicalize m2 ->
  forall s, startsWith m1 s = startsWith m2 s.
Proof.
  revert m2; induction m1 as [|c m1 IH]; intros [|d m2] H s;
    try discriminate; [reflexivity|].
  cbn [map] in H. injection H as Hc Hm.
  destruct s as [|x s]; [reflexivity|].
  cbn [startsWith]. unfold chr_matches. rewrite Hc. now rewrite (IH m2 Hm s).
Qed.

Lemma matchHere_canonical (m1 m2 : jsstring) :
  map canonicalize m1 = map canonicalize m2 ->
  forall s, matchHere (markerPattern m1) s = matchHere (markerPattern m2) s.
Proof.
  intros H s. rewrite !matchHere_marker.
  rewrite (startsWith_canonical m1 m2 H s).
  assert (L : length m1 = length m2).
  { apply (f_equal (@length _)) in H. now rewrite !length_map in H. }
  now rewrite L.
Qed.

Lemma scan_ext (p q : regex) :
  (forall s, matchHere p s = matchHere q s) ->
  forall s skip pos, scan p s skip pos = scan q s skip pos.
Proof.
  intros H. induction s as [|x s IH]; intros skip pos; cbn [scan].
  - now rewrite H.
  - destruct skip as [|k]; [|apply IH].
    rewrite H. destruct (matchHere q (x :: s)); now rewrite IH.
Qed.

Lemma matchAll_canonical (m1 m2 text : jsstring) :
  map canonicalize m1 = map canonicalize m2 ->
  matchAll (markerPattern m1) text = matchAll (markerPattern m2) text.
Proof.
  intros H. unfold matchAll.
  now rewrite (scan_ext _ _ (matchHere_canonical m1 m2 H) text 0 0).
Qed.

Lemma collectErrors_groups (text : jsstring) :
  collectErrors text
  = errorMatches text ++ errorMatches text ++ failedMatches text
      ++ failedMatches text ++ bracketMatches text ++ fatalMatches text.
Proof.
  rewrite collectErrors_concat, errorPatterns_markers, map_map.
  unfold markers. cbn [map concat]. rewrite app_nil_r.
  unfold errorMatches, failedMatches, bracketMatches, fatalMatches.
  rewrite (matchAll_canonical (js "ERROR:") (js "Error:") text eq_refl).
  rewrite (matchAll_canonical (js "FAILED:") (js "Failed:") text eq_refl).
  reflexivity.
Qed.

(** The expressions for [Error:] and [ERROR:] find the same matches in every
    text, and so do those for [Failed:] and [FAILED:]: [errors] holds every
    match of these markers twice. *)
Theorem case_variants_match_twice (text : jsstring) :
  matchAll (lit "Error:" ++ [DotPlus]) text
    = matchAll (lit "ERROR:" ++ [DotPlus]) text /\
  matchAll (lit "Failed:" ++ [DotPlus]) text
    = matchAll (lit "FAILED:" ++ [DotPlus]) text /\
  collectErrors text
  = errorMatches text ++ errorMatches text ++ failedMatches text
      ++ failedMatches text ++ bracketMatches text ++ fatalMatches text.
Proof.
  split; [|split].
  - apply (matchAll_canonical (js "Error:") (js "ERROR:") text eq_refl).
  - apply (matchAll_canonical (js "Failed:") (js "FAILED:") text eq_refl).
  - apply collectErrors_groups.
Qed.

Lemma firstn_app_enough {A : Type} (n : nat) (l rest : list A) :
  n <= length l -> firstn n (l ++ rest) = firstn n l.
Proof.
  revert l; induction n as [|n IH]; intros l H; [reflexivity|].
  destruct l as [|x l]; cbn [length] in H; [lia|].
  cbn [app firstn]. rewrite IH by lia. reflexivity.
Qed.

(** With 25 or more matches of the [Error:] expression, the 50 entries kept
    are matches of that expression only: matches of [Failed:], [[error]] and
    [fatal:] are cut off, wherever they stand in the text. *)
Theorem error_matches_crowd_out (text : jsstring) :
  25 <= length (errorMatches text) ->
  lines (extractErrorExcerpt text)
  = firstn 50 (errorMatches text ++ errorMatches text).
Proof.
  intros H.
  assert (Hne : collectErrors text <> []).
  { rewrite collectErrors_groups.
    destruct (errorMatches text); [cbn in H; lia|discriminate]. }
  rewrite (excerpt_lines text Hne), collectErrors_groups.
  rewrite (app_assoc (errorMatches text)).
  apply firstn_app_enough. rewrite length_app. lia.
Qed.

Lemma error_matches_crowd_out_witness :
  25 <= length (errorMatches crowdedLog) /\
  fatalMatches crowdedLog = [js "fatal: out of disk"] /\
  lines (extractErrorExcerpt crowdedLog)
  = firstn 50 (errorMatches crowdedLog ++ errorMatches crowdedLog).
Proof.
  assert (H : 25 <= length (errorMatches crowdedLog))
    by (vm_compute; repeat constructor).
  split; [exact H|]. split; [vm_compute; reflexivity|].
  exact (error_matches_crowd_out crowdedLog H).
Defined.

Lemma startsWith_firstn (marker s rest : jsstring) :
  startsWith marker s = true ->
  startsWith marker (firstn (length marker) s ++ rest) = true.
Proof.
  revert s; induction marker as [|c marker IH]; intros s H; [reflexivity|].
  destruct s as [|x s]; [discriminate|].
  cbn [startsWith] in H. apply andb_prop in H. destruct H as [Hx Hs].
  cbn [length firstn app startsWith]. now rewrite Hx, (IH s Hs).
Qed.

Lemma canonicalize_terminator (x : codeunit) :
  isLineTerminator x = true -> canonicalize x = x.
Proof.
  unfold isLineTerminator. intros H.
  repeat (apply orb_prop in H; destruct H as [H|H]);
    apply N.eqb_eq in H; subst x; reflexivity.
Qed.

Lemma startsWith_noLineTerminator (marker s : jsstring) :
  forallb (fun c => negb (isLineTerminator (canonicalize c))) marker = true ->
  startsWith marker s = true ->
  noLineTerminator (firstn (length marker) s) = true.
Proof.
  revert s; induction marker as [|c marker IH]; intros s Hm Hs; [reflexivity|].
  destruct s as [|x s]; [discriminate|].
  cbn [forallb] in Hm. cbn [startsWith] in Hs.
  apply andb_prop in Hm. destruct Hm as [Hc Hm].
  apply andb_prop in Hs. destruct Hs as [Hx Hs].
  cbn [length firstn]. unfold noLineTerminator. cbn [forallb].
  fold (noLineTerminator (firstn (length marker) s)).
  rewrite (IH s Hm Hs), andb_true_r.
  destruct (isLineTerminator x) eqn:E; [|reflexivity].
  unfold chr_matches in Hx. apply N.eqb_eq in Hx.
  rewrite (canonicalize_terminator x E) in Hx. rewrite <- Hx, E in Hc.
  discriminate.
Qed.

Lemma noLineTerminator_lineRest (s : jsstring) :
  noLineTerminator (lineRest s) = true.
Proof.
  induction s as [|x s IH]; [reflexivity|].
  cbn [lineRest]. destruct (isLineTerminator x) eqn:E; [reflexivity|].
  unfold noLineTerminator. cbn [forallb]. rewrite E.
  exact IH.
Qed.

Lemma markers_no_terminator (marker : jsstring) :
  In marker markers ->
  forallb (fun c => negb (isLineTerminator (canonicalize c))) marker = true.
Proof.
  intros H. cbn in H.
  repeat (destruct H as [<-|H]; [vm_compute; reflexivity|]). destruct H.
Qed.

Lemma fragment_firstn (marker s : jsstring) :
  fragment marker s
  = firstn (length marker + length (lineRest (skipn (length marker) s))) s.
Proof.
  unfold fragment. now rewrite firstn_plus, firstn_lineRest.
Qed.

Lemma matchedIn_marked (text x : jsstring) :
  matchedIn text x ->
  occursIn text x /\ beginsWithMarker x = true /\ noLineTerminator x = true.
Proof.
  intros (marker & i & Hin & Hi & Hs & Hr & ->). split; [|split].
  - rewrite fragment_firstn.
    set (n := length marker
              + length (lineRest (skipn (length marker) (skipn i text)))).
    exists (firstn i text), (skipn n (skipn i text)).
    now rewrite firstn_skipn, firstn_skipn.
  - unfold beginsWithMarker. apply existsb_exists. exists marker.
    split; [exact Hin|]. unfold fragment. now apply startsWith_firstn.
  - unfold fragment, noLineTerminator. rewrite forallb_app.
    fold (noLineTerminator (firstn (length marker) (skipn i text))).
    fold (noLineTerminator
            (lineRest (skipn (length marker) (skipn i text)))).
    rewrite noLineTerminator_lineRest, andb_true_r.
    apply startsWith_noLineTerminator;
      [now apply markers_no_terminator|exact Hs].
Qed.

(** When some pattern matched, every line of the excerpt is a piece of the
    log text itself, begins with one of the markers (letter case ignored)
    and holds no line terminator: no carriage return of a CRLF line end, no
    U+2028 or U+2029. *)
Theorem excerpt_lines_are_marked (text : jsstring) :
  collectErrors text <> [] ->
  Forall
    (fun line =>
       occursIn text line /\ beginsWithMarker line = true /\
       noLineTerminator line = true)
    (lines (extractErrorExcerpt text)).
Proof.
  intros Hne. rewrite (excerpt_lines text Hne).
  apply Forall_forall. intros x Hx. apply matchedIn_marked.
  apply collectErrors_matchedIn. now apply In_firstn with 50.
Qed.

Lemma excerpt_lines_are_marked_witness :
  collectErrors midLineLog <> [] /\
  Forall
    (fun line =>
       occursIn midLineLog line /\ beginsWithMarker line = true /\
       noLineTerminator line = true)
    (lines (extractErrorExcerpt midLineLog)).
Proof.
  assert (H : collectErrors midLineLog <> []) by (vm_compute; discriminate).
  split; [exact H|exact (excerpt_lines_are_marked midLineLog H)].
Defined.

(** *** Matches are found line by line *)

Lemma scan_found (p : regex) (text : jsstring) :
  forall s skip pos,
    skipn pos text = s ->
    map (substring text) (scan p s skip pos) = found p s skip.
Proof.
  induction s as [|x s IH]; intros skip pos Hs; cbn [scan found].
  - destruct skip; [|reflexivity].
    destruct (matchHere p []); [|reflexivity].
    cbn [map]. unfold substring. cbn [fst snd]. now rewrite Hs.
  - assert (Hs' : skipn (S pos) text = s).
    { change (S pos) with (1 + pos). rewrite <- skipn_skipn, Hs. reflexivity. }
    destruct skip as [|k]; [|now apply IH].
    destruct (matchHere p (x :: s)) as [n|]; [|now apply IH].
    cbn [map]. unfold substring at 1. cbn [fst snd]. rewrite Hs.
    f_equal. now apply IH.
Qed.

Lemma matchAll_found (p : regex) (text : jsstring) :
  matchAll p text = found p text 0.
Proof. apply scan_found. reflexivity. Qed.

Lemma matchHere_dotplus_cons (p : regex) (x : codeunit) (s : jsstring) :
  matchHere (DotPlus :: p) (x :: s)
  = if isLineTerminator x then None
    else match matchHere (DotPlus :: p) s with
         | Some n => Some (S n)
         | None => option_map S (matchHere p s)
         end.
Proof. reflexivity. Qed.

(** A match never runs past the end of the text. *)
Lemma matchHere_le (p : regex) :
  forall s n, matchHere p s = Some n -> n <= length s.
Proof.
  induction p as [|[c|] p IH]; intros s n.
  - cbn. intros [= <-]. lia.
  - destruct s as [|x s]; cbn [matchHere]; [discriminate|].
    destruct (chr_matches c x); [|discriminate].
    destruct (matchHere p s) as [k|] eqn:E; cbn [option_map];
      [|discriminate].
    intros [= <-]. apply IH in E. cbn [length]. lia.
  - revert n; induction s as [|x s IHs]; intros n; [discriminate|].
    rewrite matchHere_dotplus_cons.
    destruct (isLineTerminator x); [discriminate|].
    destruct (matchHere (DotPlus :: p) s) as [k|] eqn:E.
    + intros [= <-]. specialize (IHs k eq_refl). cbn [length]. lia.
    + destruct (matchHere p s) as [k|] eqn:E'; cbn [option_map];
        [|discriminate].
      intros [= <-]. apply IH in E'. cbn [length]. lia.
Qed.

Lemma lineRest_app_nl (s rest : jsstring) :
  lineRest (s ++ nl ++ rest) = lineRest s.
Proof.
  induction s as [|x s IH]; [reflexivity|].
  cbn [app lineRest]. destruct (isLineTerminator x); [reflexivity|].
  fold (s ++ nl ++ rest). now rewrite IH.
Qed.

(** What a marker pattern matches at a position does not depend on the
    text after the next newline. *)
Lemma matchHere_line (marker : jsstring) :
  forallb (fun c => negb (canonicalize c =? 10)%N) marker = true ->
  forall s rest,
    matchHere (markerPattern marker) (s ++ nl ++ rest)
    = matchHere (markerPattern marker) s.
Proof.
  unfold markerPattern.
  induction marker as [|c marker IH]; intros Hm s rest.
  - cbn [map app]. now rewrite !matchHere_dotplus, lineRest_app_nl.
  - cbn [forallb] in Hm. apply andb_prop in Hm. destruct Hm as [Hc Hm].
    destruct s as [|x s].
    + unfold nl. cbn [map app matchHere]. unfold chr_matches.
      change (canonicalize 10%N) with 10%N. rewrite N.eqb_sym.
      apply negb_true_iff in Hc. now rewrite Hc.
    + cbn [map app matchHere]. destruct (chr_matches c x); [|reflexivity].
      fold (s ++ nl ++ rest). now rewrite (IH Hm s rest).
Qed.

Lemma found_line (p : regex) (rest : jsstring) :
  (forall s, matchHere p (s ++ nl ++ rest) = matchHere p s) ->
  matchHere p [] = None ->
  forall s skip,
    skip <= length s ->
    found p (s ++ nl ++ rest) skip = found p s skip ++ found p rest 0.
Proof.
  intros Hline Hnil. induction s as [|x s IH]; intros skip Hk.
  - cbn [length] in Hk. assert (skip = 0) by lia. subst skip.
    specialize (Hline []) as H0. unfold nl in H0 |- *.
    cbn [app] in H0. cbn [app found]. rewrite H0, Hnil. reflexivity.
  - cbn [app found]. fold (s ++ nl ++ rest). cbn [length] in Hk.
    destruct skip as [|k]; [|apply IH; lia].
    specialize (Hline (x :: s)) as Hx. cbn [app] in Hx.
    fold (s ++ nl ++ rest) in Hx. rewrite Hx.
    destruct (matchHere p (x :: s)) as [n|] eqn:E.
    + pose proof (matchHere_le p (x :: s) n E) as Hn. cbn [length] in Hn.
      rewrite IH by lia. cbn [app]. f_equal.
      change (x :: s ++ nl ++ rest) with ((x :: s) ++ nl ++ rest).
      apply firstn_app_enough. exact Hn.
    + apply IH. lia.
Qed.

(** The matches of a pattern in two texts joined by a newline are its
    matches in the first followed by its matches in the second: no match
    spans the newline, and the text of one line never changes what is
    matched in another. *)
Theorem matches_are_found_line_by_line
  (p : regex) (first second : jsstring) :
  In p errorPatterns ->
  matchAll p (first ++ nl ++ second)
  = matchAll p first ++ matchAll p second.
Proof.
  intros Hp. rewrite errorPatterns_markers in Hp. apply in_map_iff in Hp.
  destruct Hp as (marker & <- & Hin).
  rewrite !matchAll_found. apply found_line.
  - intros s. apply matchHere_line. now apply markers_no_LF.
  - rewrite matchHere_marker.
    destruct (startsWith marker []); [|reflexivity].
    now rewrite skipn_nil.
  - lia.
Qed.

Lemma matches_are_found_line_by_line_witness :
  matchAll (lit "fatal:" ++ [DotPlus])
    (js "fatal: a" ++ nl ++ js "x fatal: b")
  = [js "fatal: a"; js "fatal: b"].
Proof.
  rewrite (matches_are_found_line_by_line (lit "fatal:" ++ [DotPlus])
             (js "fatal: a") (js "x fatal: b")).
  - vm_compute. reflexivity.
  - vm_compute. do 5 right. left. reflexivity.
Defined.

(** ** The GitHub service *)

Import LogFetcher.

(** A rejected request is rethrown with its own error by every method that
    made it, whatever becomes of the other requests: [getLastFailedRun] does
    not turn it into [null], and [extractFailureInfo] does not turn it into
    an empty report. *)
Theorem rejected_requests_are_rethrown
  (axios_get : Request -> completion ResponseData)
  (axios_get_binary : LogsRequest -> completion (list Byte.byte))
  (owner repo workflowId : string) (run : Z) :
  (forall error,
     axios_get (failedRunsRequest owner repo workflowId) = Throw error ->
     getWorkflowRuns axios_get owner repo workflowId "completed" "failure"
       = Throw error /\
     getLastFailedRun axios_get owner repo workflowId = Throw error) /\
  (forall error,
     axios_get (jobsRequest owner repo run) = Throw error ->
     getWorkflowRunJobs axios_get owner repo run = Throw error /\
     extractFailureInfo axios_get owner repo run = Throw error) /\
  (forall error,
     axios_get_binary (logsRequest owner repo run) = Throw error ->
     getWorkflowRunLogs axios_get_binary owner repo run = Throw error).
Proof.
  split; [|split].
  - intros error Hruns.
    assert (R : getWorkflowRuns axios_get owner repo workflowId
                  "completed" "failure" = Throw error).
    { unfold getWorkflowRuns.
      change (truthy_string "completed") with (Some "completed"%string).
      change (truthy_string "failure") with (Some "failure"%string).
      unfold failedRunsRequest in Hruns. now rewrite Hruns. }
    split; [exact R|]. unfold getLastFailedRun. now rewrite R.
  - intros error Hjobs.
    assert (J : getWorkflowRunJobs axios_get owner repo run = Throw error).
    { unfold getWorkflowRunJobs. unfold jobsRequest in Hjobs.
      now rewrite Hjobs. }
    split; [exact J|]. unfold extractFailureInfo. now rewrite J.
  - intros error Hlogs. unfold getWorkflowRunLogs.
    unfold logsRequest in Hlogs. now rewrite Hlogs.
Qed.

Lemma rejected_requests_are_rethrown_witness :
  getLastFailedRun runsDownApi "o" "r" "ci.yml"
    = Throw "Request failed with status code 404" /\
  extractFailureInfo runsDownApi "o" "r" 7
    = Normal (summarizeFailures 7 scenarioJobs) /\
  getWorkflowRunLogs (failingLogsApi "timeout of 1000ms exceeded") "o" "r" 7
    = Throw "timeout of 1000ms exceeded".
Proof.
  pose proof (rejected_requests_are_rethrown runsDownApi
                (failingLogsApi "timeout of 1000ms exceeded")
                "o" "r" "ci.yml" 7) as (Hruns & _ & Hlogs).
  split; [|split].
  - exact (proj2 (Hruns _ eq_refl)).
  - reflexivity.
  - exact (Hlogs _ eq_refl).
Defined.

(** A reply that has no [workflow_runs] field is read as no run, and one
    that has no [jobs] field as no job, each whatever else the reply holds:
    [getLastFailedRun] returns [null] and [extractFailureInfo] a report of
    zero failed jobs, without error. *)
Theorem missing_fields_read_as_empty
  (axios_get : Request -> completion ResponseData)
  (owner repo workflowId : string) (run : Z) :
  (forall data,
     axios_get (failedRunsRequest owner repo workflowId) = Normal data ->
     workflow_runs data = None ->
     getWorkflowRuns axios_get owner repo workflowId "completed" "failure"
       = Normal [] /\
     getLastFailedRun axios_get owner repo workflowId = Normal None) /\
  (forall data,
     axios_get (jobsRequest owner repo run) = Normal data ->
     jobs data = None ->
     getWorkflowRunJobs axios_get owner repo run = Normal [] /\
     extractFailureInfo axios_get owner repo run
       = Normal (mkFailureInfo run 0 [])).
Proof.
  split.
  - intros data Hruns Hnone.
    assert (R : getWorkflowRuns axios_get owner repo workflowId
                  "completed" "failure" = Normal []).
    { unfold getWorkflowRuns.
      change (truthy_string "completed") with (Some "completed"%string).
      change (truthy_string "failure") with (Some "failure"%string).
      unfold failedRunsRequest in Hruns. rewrite Hruns. cbn [bind try_catch].
      now rewrite Hnone. }
    split; [exact R|]. unfold getLastFailedRun. now rewrite R.
  - intros data Hjobs Hnone.
    assert (J : getWorkflowRunJobs axios_get owner repo run = Normal []).
    { unfold getWorkflowRunJobs. unfold jobsRequest in Hjobs.
      rewrite Hjobs. cbn [bind try_catch]. now rewrite Hnone. }
    split; [exact J|]. unfold extractFailureInfo. now rewrite J.
Qed.

Lemma missing_fields_read_as_empty_witness :
  getLastFailedRun scenarioApi "o" "r" "ci.yml" = Normal None /\
  extractFailureInfo scenarioApi "o" "r" 7
    = Normal (summarizeFailures 7 scenarioJobs) /\
  extractFailureInfo unsortedApi "o" "r" 7 = Normal (mkFailureInfo 7 0 []) /\
  getLastFailedRun unsortedApi "o" "r" "ci.yml" = Normal (Some olderRun).
Proof.
  split; [|split; [|split]].
  - exact (proj2 (proj1 (missing_fields_read_as_empty scenarioApi
             "o" "r" "ci.yml" 7) _ eq_refl eq_refl)).
  - reflexivity.
  - exact (proj2 (proj2 (missing_fields_read_as_empty unsortedApi
             "o" "r" "ci.yml" 7) _ eq_refl eq_refl)).
  - reflexivity.
Defined.

(** The report of two job sequences put one after the other lists the
    failed jobs of the first and then those of the second, and its count is
    the sum of the two counts. *)
Theorem summarizeFailures_app (run : Z) (first second : list Job) :
  failedJobs (summarizeFailures run (first ++ second))
  = failedJobs (summarizeFailures run first)
      ++ failedJobs (summarizeFailures run second) /\
  failedJobsCount (summarizeFailures run (first ++ second))
  = failedJobsCount (summarizeFailures run first)
      + failedJobsCount (summarizeFailures run second).
Proof.
  cbn [summarizeFailures failedJobs failedJobsCount].
  rewrite filter_app, map_app, length_app. split; reflexivity.
Qed.

Lemma failedJobOf_failed_steps (job : Job) :
  Forall (fun step => fs_conclusion step = Some "failure"%string)
    (fj_failedSteps (failedJobOf job)).
Proof.
  cbn [failedJobOf fj_failedSteps]. apply Forall_forall. intros shown H.
  apply in_map_iff in H. destruct H as (step & <- & H).
  apply filter_In in H. destruct H as [_ H].
  cbn [failedStepOf fs_conclusion]. now apply is_failure_spec.
Qed.

Lemma filter_length_zero {A : Type} (keep : A -> bool) (l : list A) :
  length (filter keep l) = 0 <-> Forall (fun x => keep x = false) l.
Proof.
  induction l as [|x l IH]; cbn [filter].
  - split; [constructor|reflexivity].
  - destruct (keep x) eqn:E; cbn [length].
    + split; [discriminate|]. intros H. inversion H; congruence.
    + rewrite IH. split; [now constructor|]. intros H. now inversion H.
Qed.

(** Whatever [extractFailureInfo] returns is about the run asked for; every
    job in it has the conclusion [failure] and so has every step listed
    under it; the count is the length of the list, is at most the number of
    jobs fetched, and is zero exactly when no fetched job failed. *)
Theorem extractFailureInfo_report
  (axios_get : Request -> completion ResponseData)
  (owner repo : string) (run : Z) (report : FailureInfo) :
  extractFailureInfo axios_get owner repo run = Normal report ->
  runId report = run /\
  failedJobsCount report = length (failedJobs report) /\
  Forall
    (fun shown =>
       fj_conclusion shown = Some "failure"%string /\
       Forall (fun step => fs_conclusion step = Some "failure"%string)
         (fj_failedSteps shown))
    (failedJobs report) /\
  exists fetched : list Job,
    getWorkflowRunJobs axios_get owner repo run = Normal fetched /\
    failedJobsCount report <= length fetched /\
    (failedJobsCount report = 0 <->
     Forall (fun job => job_conclusion job <> Some "failure"%string) fetched).
Proof.
  rewrite extractFailureInfo_summarizes.
  destruct (getWorkflowRunJobs axios_get owner repo run) as [fetched|m];
    cbn [bind]; [|discriminate].
  intros [= <-]. split; [reflexivity|]. split.
  - cbn [summarizeFailures failedJobsCount failedJobs]. now rewrite length_map.
  - split.
    + cbn [summarizeFailures failedJobs]. apply Forall_forall.
      intros shown H. apply in_map_iff in H. destruct H as (job & <- & H).
      apply filter_In in H. destruct H as [_ H]. split.
      * cbn [failedJobOf fj_conclusion]. now apply is_failure_spec.
      * apply failedJobOf_failed_steps.
    + exists fetched. split; [reflexivity|].
      cbn [summarizeFailures failedJobsCount]. split.
      * apply filter_length_le.
      * rewrite filter_length_zero. split; intros H;
          apply Forall_forall; intros job Hj;
          apply (proj1 (Forall_forall _ _) H) in Hj.
        -- intros E. apply is_failure_spec in E. congruence.
        -- destruct (is_failure (job_conclusion job)) eqn:E; [|reflexivity].
           apply is_failure_spec in E. contradiction.
Qed.

Lemma extractFailureInfo_report_witness :
  extractFailureInfo scenarioApi "o" "r" 7
    = Normal (summarizeFailures 7 scenarioJobs) /\
  failedJobsCount (summarizeFailures 7 scenarioJobs) <= 2.
Proof.
  assert (H : extractFailureInfo scenarioApi "o" "r" 7
              = Normal (summarizeFailures 7 scenarioJobs)) by reflexivity.
  split; [exact H|].
  destruct (extractFailureInfo_report scenarioApi "o" "r" 7 _ H)
    as (_ & _ & _ & fetched & Hf & Hle & _).
  injection Hf as <-. exact Hle.
Defined.

(** ** The push-mode endpoint *)

Lemma truthy_string_value (v : value) :
  truthy v = true ->
  (exists s, v = VStr s /\ s <> ""%string) \/ (forall s, v <> VStr s).
Proof.
  destruct v; cbn [truthy]; intros H; try (right; intros s0 E; discriminate).
  left. exists s. split; [reflexivity|].
  intros ->. discriminate.
Qed.

Lemma analyze_accepts (now : string) (reqBody : value) (log : string) :
  reqBody <> VUndefined -> reqBody <> VNull ->
  get "errorLog" reqBody = VStr log -> log <> ""%string ->
  analyze now reqBody = Normal (received now reqBody).
Proof.
  intros H1 H2 Hg Hne. rewrite (analyze_truthy now reqBody H1 H2).
  - rewrite Hg. reflexivity.
  - rewrite Hg. cbn [truthy].
    destruct (String.eqb_spec log ""); [contradiction|reflexivity].
Qed.

Lemma analyze_throws (now : string) (reqBody : value) :
  reqBody <> VUndefined -> reqBody <> VNull ->
  truthy (get "errorLog" reqBody) = true ->
  (forall s, get "errorLog" reqBody <> VStr s) ->
  analyze now reqBody = Throw "errorLog.substring is not a function".
Proof.
  intros H1 H2 Ht Hs. rewrite (analyze_truthy now reqBody H1 H2 Ht).
  destruct (get "errorLog" reqBody); try reflexivity.
  now contradiction (Hs s).
Qed.

(** The handler has three outcomes.  It throws, and sends nothing, exactly
    when the body is [undefined] or [null] or [errorLog] is truthy but not a
    string; otherwise it answers 400 with the missing-field error when
    [errorLog] is falsy and 200 with the acknowledgement when it is a
    non-empty string.  A body that is not an object is never accepted. *)
Theorem analyze_outcomes (now : string) (reqBody : value) :
  ((exists message, analyze now reqBody = Throw message) <->
   reqBody = VUndefined \/ reqBody = VNull \/
   (truthy (get "errorLog" reqBody) = true /\
    forall s, get "errorLog" reqBody <> VStr s)) /\
  (forall reply, analyze now reqBody = Normal reply ->
     (reply = missingErrorLog /\ statusCode reply = 400%Z /\
      truthy (get "errorLog" reqBody) = false) \/
     (reply = received now reqBody /\ statusCode reply = 200%Z /\
      exists log, get "errorLog" reqBody = VStr log /\ log <> ""%string)) /\
  ((forall fields, reqBody <> VObj fields) ->
   reqBody <> VUndefined -> reqBody <> VNull ->
   analyze now reqBody = Normal missingErrorLog).
Proof.
  assert (Nullish : reqBody = VUndefined \/ reqBody = VNull \/
                    (reqBody <> VUndefined /\ reqBody <> VNull)).
  { destruct reqBody; auto; right; right; split; discriminate. }
  destruct Nullish as [->|[->|[H1 H2]]].
  - split; [split; [auto|intros _; eexists; reflexivity]|].
    split; [intros; discriminate|intros _ H; now contradiction H].
  - split; [split; [auto|intros _; eexists; reflexivity]|].
    split; [intros; discriminate|intros _ _ H; now contradiction H].
  - destruct (truthy (get "errorLog" reqBody)) eqn:Ht.
    + destruct (truthy_string_value _ Ht) as [(log & Hg & Hne)|Hs].
      * pose proof (analyze_accepts now reqBody log H1 H2 Hg Hne) as E.
        split; [split|split].
        -- intros (m & Hm). rewrite E in Hm. discriminate.
        -- intros [->|[->|[_ Hs]]];
             [congruence|congruence|now contradiction (Hs log)].
        -- intros reply Hr. rewrite E in Hr. injection Hr as <-.
           right. split; [reflexivity|]. split; [reflexivity|].
           now exists log.
        -- intros Hobj _ _. destruct reqBody; try discriminate.
           now contradiction (Hobj fields).
      * pose proof (analyze_throws now reqBody H1 H2 Ht Hs) as E.
        split; [split|split].
        -- intros _. right. right. split; [reflexivity|exact Hs].
        -- intros _. eexists. exact E.
        -- intros reply Hr. rewrite E in Hr. discriminate.
        -- intros Hobj _ _. destruct reqBody; try discriminate.
           now contradiction (Hobj fields).
    + pose proof (analyze_falsy now reqBody H1 H2 Ht) as E.
      split; [split|split].
      * intros (m & Hm). rewrite E in Hm. discriminate.
      * intros [->|[->|[Hx _]]]; congruence.
      * intros reply Hr. rewrite E in Hr. injection Hr as <-.
        left. repeat split.
      * intros _ _ _. exact E.
Qed.

Lemma analyze_outcomes_witness :
  analyze timestamp (VArr [VObj [("errorLog"%string, VStr "x")]])
  = Normal missingErrorLog /\
  (exists message,
     analyze timestamp (VObj [("errorLog"%string, VBool true)])
     = Throw message).
Proof.
  split.
  - apply (proj2 (proj2 (analyze_outcomes timestamp
             (VArr [VObj [("errorLog"%string, VStr "x")]]))));
      [intros fields| |]; discriminate.
  - apply (proj2 (proj1 (analyze_outcomes timestamp
             (VObj [("errorLog"%string, VBool true)])))).
    right. right. split; [reflexivity|]. intros s. discriminate.
Defined.

(** The acknowledgement does not depend on what the error log says, nor on
    any field other than the four it echoes: two bodies with non-empty
    string logs and the same [runId], [runUrl], [repository] and
    [failedJobs] get the same reply. *)
Theorem reply_ignores_the_log
  (now : string) (fields fields' : list (string * value))
  (log log' : string) :
  get "errorLog" (VObj fields) = VStr log -> log <> ""%string ->
  get "errorLog" (VObj fields') = VStr log' -> log' <> ""%string ->
  (forall key, In key echoedKeys ->
     get key (VObj fields) = get key (VObj fields')) ->
  analyze now (VObj fields) = analyze now (VObj fields') /\
  analyze now (VObj fields) = Normal (received now (VObj fields)).
Proof.
  intros Hg Hne Hg' Hne' Hsame.
  assert (E : analyze now (VObj fields) = Normal (received now (VObj fields)))
    by (apply (analyze_accepts now _ log); try discriminate; assumption).
  assert (E' : analyze now (VObj fields')
               = Normal (received now (VObj fields')))
    by (apply (analyze_accepts now _ log'); try discriminate; assumption).
  split; [|exact E]. rewrite E, E'. unfold received.
  rewrite (Hsame "runId"%string), (Hsame "runUrl"%string),
    (Hsame "repository"%string), (Hsame "failedJobs"%string);
    [reflexivity| | | |]; cbn; tauto.
Qed.

Lemma reply_ignores_the_log_witness :
  analyze timestamp
    (VObj [("runId"%string, VNum 7); ("errorLog"%string, VStr "Error: a")])
  = analyze timestamp
      (VObj [("errorLog"%string, VStr "fatal: b");
             ("attempt"%string, VNum 2); ("runId"%string, VNum 7)]).
Proof.
  apply (proj1 (reply_ignores_the_log timestamp
           [("runId"%string, VNum 7); ("errorLog"%string, VStr "Error: a")]
           [("errorLog"%string, VStr "fatal: b");
            ("attempt"%string, VNum 2); ("runId"%string, VNum 7)]
           "Error: a" "fatal: b" eq_refl ltac:(discriminate)
           eq_refl ltac:(discriminate)
           ltac:(intros key [<-|[<-|[<-|[<-|[]]]]]; reflexivity))).
Defined.

(** ** Which tier of the extractor answers *)

(** The tail of the log is returned exactly when no marker in the text is
    followed by a character on its line: [errors] is empty if and only if
    every occurrence of a marker stands at the very end of its line, and
    then the excerpt is the last 2000 code units. *)
Theorem tail_exactly_without_marked_text (text : jsstring) :
  (collectErrors text = [] <->
   forall marker i,
     In marker markers ->
     startsWith marker (skipn i text) = true ->
     lineRest (skipn (length marker) (skipn i text)) = []) /\
  (collectErrors text = [] ->
   extractErrorExcerpt text = slice_last 2000 text).
Proof.
  split; [split|apply excerpt_unmatched].
  - intros E marker i Hin Hs.
    destruct (lineRest (skipn (length marker) (skipn i text)))
      as [|c r] eqn:Hr; [reflexivity|exfalso].
    assert (Hi : i <= length text).
    { destruct (le_lt_dec i (length text)) as [H|H]; [exact H|].
      rewrite (skipn_all2 text) in Hr by lia.
      rewrite skipn_nil in Hr. discriminate. }
    pose proof (matchHere_marker marker (skipn i text)) as Hm.
    rewrite Hs, Hr in Hm. cbn [length] in Hm.
    apply (match_collectErrors text (markerPattern marker) i _) in Hm;
      [contradiction| |exact Hi].
    rewrite errorPatterns_markers. now apply in_map.
  - intros Hnone. destruct (collectErrors text) as [|x l] eqn:E;
      [reflexivity|exfalso].
    assert (Hx : matchedIn text x)
      by (apply collectErrors_matchedIn; rewrite E; now left).
    destruct Hx as (marker & i & Hin & _ & Hs & Hr & _).
    apply Hr. now apply Hnone.
Qed.

Lemma tail_exactly_without_marked_text_witness :
  collectErrors bareMarkerLog = [] /\
  extractErrorExcerpt bareMarkerLog = slice_last 2000 bareMarkerLog.
Proof.
  assert (H : collectErrors bareMarkerLog = []) by (vm_compute; reflexivity).
  split; [exact H|].
  exact (proj2 (tail_exactly_without_marked_text bareMarkerLog) H).
Defined.

(** ** Buffers of ASCII text *)

Lemma decode_ascii (bytes : list Byte.byte) :
  Forall (fun b => (Byte.to_N b <= 127)%N) bytes ->
  Utf8.decode bytes = map Byte.to_N bytes.
Proof.
  unfold Utf8.decode. induction 1 as [|b bytes Hb _ IH]; [reflexivity|].
  cbn [Utf8.run map]. unfold Utf8.step. cbn [Utf8.needed Utf8.initial].
  unfold Utf8.lead. apply N.leb_le in Hb. rewrite Hb. cbn [app].
  now rewrite IH.
Qed.

(** A buffer that holds only ASCII bytes gives the result that the string of
    the same characters gives: the excerpt of that text. *)
Theorem ascii_buffer_is_read_as_its_text (bytes : list Byte.byte) :
  Forall (fun b => (Byte.to_N b <= 127)%N) bytes ->
  extractErrorsFromLogs (LogBuffer bytes)
    = Normal (extractErrorExcerpt (map Byte.to_N bytes)) /\
  extractErrorsFromLogs (LogBuffer bytes)
    = extractErrorsFromLogs (LogString (map Byte.to_N bytes)).
Proof.
  intros H. unfold extractErrorsFromLogs. cbn [toString bind try_catch].
  rewrite (decode_ascii bytes H). split; reflexivity.
Qed.

Lemma ascii_buffer_is_read_as_its_text_witness :
  extractErrorsFromLogs (LogBuffer [Byte.x66; Byte.x61; Byte.x74; Byte.x61;
                                    Byte.x6c; Byte.x3a; Byte.x20; Byte.x78])
  = Normal (js "fatal: x").
Proof.
  rewrite (proj1 (ascii_buffer_is_read_as_its_text
             [Byte.x66; Byte.x61; Byte.x74; Byte.x61;
              Byte.x6c; Byte.x3a; Byte.x20; Byte.x78]
             ltac:(repeat constructor; vm_compute; discriminate))).
  vm_compute. reflexivity.
Defined.
